(** * qxgedit: XG parameter keys, key observer and the MIDI capture boundary

    A shallow embedding of the code of [src/XGParam.h] and
    [src/qxgeditMidiDevice.cpp].  Integers are modelled as [Z], byte
    arrays as [list Z], [QString] as [string]; the calls the code makes
    to its collaborators (consumer notifications, port subscriptions) are
    returned as lists, in the order the code makes them. *)

From Stdlib Require Import ZArith List Bool Lia String Ascii.
From Stdlib Require Import Decimal DecimalString.
Import ListNotations.

Local Open Scope Z_scope.

(* ------------------------------------------------------------------ *)
(** ** XGParam.h: map keys *)

Module XGParam.

(** [class XGParamKey]: three [unsigned short] members. *)
Record XGParamKey := mkXGParamKey {
  high : Z;
  mid  : Z;
  low  : Z
}.

(** [XGParamKey::operator<] (XGParam.h, 357-366). *)
Definition XGParamKey_lt (a key : XGParamKey) : bool :=
  if negb (high a =? high key) then high a <? high key
  else if negb (mid a =? mid key) then mid a <? mid key
  else low a <? low key.

(** [class XGRpnParamKey]: an [unsigned char] channel and an
    [unsigned short] parameter number. *)
Record XGRpnParamKey := mkXGRpnParamKey {
  channel : Z;
  param   : Z
}.

(** [XGRpnParamKey::operator<] (XGParam.h, 496-502).  The second
    return compares [m_channel] with [key.param()], as the source does. *)
Definition XGRpnParamKey_lt (a key : XGRpnParamKey) : bool :=
  if negb (channel a =? channel key) then channel a <? channel key
  else channel a <? param key.

(** The order the comparator of [XGRpnParamKey] is documented to be:
    channel first, then parameter number. *)
Definition XGRpnParamKey_lex (a b : XGRpnParamKey) : Prop :=
  channel a < channel b \/ (channel a = channel b /\ param a < param b).

(** The lexicographic order on address triples. *)
Definition XGParamKey_lex (a b : XGParamKey) : Prop :=
  high a < high b
  \/ (high a = high b /\ mid a < mid b)
  \/ (high a = high b /\ mid a = mid b /\ low a < low b).

(** *** XGParamMap::Observer *)

(** The maps of the process are told apart by an identifier, standing
    for the [XGParamMap *] the observer holds. *)
Definition XGParamMapRef := nat.

(** Calls an observer callback makes on its collaborators. *)
Inductive MapCall :=
| Call_notify_reset (map : XGParamMapRef).

(** [class XGParamMap::Observer] (XGParam.h, 442-458): the only member
    is the owning map. *)
Record Observer := mkObserver { m_map : XGParamMapRef }.

(** [void reset() { m_map->notify_reset(); }] *)
Definition Observer_reset (o : Observer) : list MapCall :=
  [Call_notify_reset (m_map o)].

(** [void update() { reset(); }] *)
Definition Observer_update (o : Observer) : list MapCall :=
  Observer_reset o.

(** The two notifications of [XGParamObserver] a subject can deliver. *)
Inductive Notification := Update | Reset.

(** Virtual dispatch of a notification to the map's observer. *)
Definition Observer_dispatch (n : Notification) (o : Observer) : list MapCall :=
  match n with
  | Update => Observer_update o
  | Reset => Observer_reset o
  end.

End XGParam.

(* ------------------------------------------------------------------ *)
(** ** qxgeditMidiRpn: the RPN/NRPN aggregator the device drives *)

Module qxgeditMidiRpn.

(** [enum Type] is declared in qxgeditMidiRpn.h, which is missing; the
    codes are those the device code writes next to the cases of its
    switch on [status & 0x70] (qxgeditMidiDevice.cpp, 175-187). *)
Definition CC   : Z := 0x10.
Definition RPN  : Z := 0x20.
Definition NRPN : Z := 0x30.
Definition CC14 : Z := 0x40.

(** [struct Event] is declared in the same missing header; these are
    the five fields the device code reads and writes (151-157, 171-194,
    540-557).  [status] holds the type code in bits 4-6 and the MIDI
    channel in the low four bits. *)
Record Event := mkEvent {
  time   : Z;
  port   : Z;
  status : Z;
  param  : Z;
  value  : Z
}.

(** Modelled from the spec: the body of class [qxgeditMidiRpn]
    (qxgeditMidiRpn.h/.cpp) is missing; its per-channel state machine is
    kept abstract as a [Cache] with the two operations that change it,
    each returning the events it completes.  [agg_process] also returns
    whether the Control-Change was consumed. *)
Class Aggregator (Cache : Type) := {
  agg_process : Event -> Cache -> bool * Cache * list Event;
  agg_flush   : Cache -> Cache * list Event
}.

(** Modelled from the spec: the aggregator is its per-channel state plus
    the queue of completed-but-not-yet-delivered events that
    [isPending()] and [dequeue()] expose (spec 4.4). *)
Record Rpn (Cache : Type) := mkRpn {
  cache : Cache;
  queue : list Event
}.
Arguments mkRpn {Cache} _ _.
Arguments cache {Cache} _.
Arguments queue {Cache} _.

Section Operations.
Context {Cache : Type} `{Aggregator Cache}.

(** Modelled from the spec: [bool qxgeditMidiRpn::process(const Event&)]
    feeds one Control-Change to the state machine and queues what it
    completes; the result tells whether the event was consumed. *)
Definition process (event : Event) (x : Rpn Cache) : bool * Rpn Cache :=
  let '(consumed, c, done) := agg_process event (cache x) in
  (consumed, mkRpn c (queue x ++ done)).

(** Modelled from the spec: [void qxgeditMidiRpn::flush()] forces
    completion or discard of the partial state and queues what it
    completes. *)
Definition flush (x : Rpn Cache) : Rpn Cache :=
  let '(c, done) := agg_flush (cache x) in
  mkRpn c (queue x ++ done).

(** Modelled from the spec: [bool qxgeditMidiRpn::isPending() const],
    whether a completed event waits in the queue. *)
Definition isPending (x : Rpn Cache) : bool :=
  match queue x with
  | [] => false
  | _ :: _ => true
  end.

(** Modelled from the spec: [bool qxgeditMidiRpn::dequeue(Event&)]
    takes the oldest completed event off the queue; [None] stands for
    the result [false]. *)
Definition dequeue (x : Rpn Cache) : option Event * Rpn Cache :=
  match queue x with
  | [] => (None, x)
  | event :: rest => (Some event, mkRpn (cache x) rest)
  end.

End Operations.

(** *** The state machine of spec 4.4 *)

Inductive Kind := KindRpn | KindNrpn.

Definition Kind_eqb (a b : Kind) : bool :=
  match a, b with
  | KindRpn, KindRpn | KindNrpn, KindNrpn => true
  | _, _ => false
  end.

Definition kind_type (k : Kind) : Z :=
  match k with
  | KindRpn => RPN
  | KindNrpn => NRPN
  end.

(** What has arrived of the parameter number of the (N)RPN in progress. *)
Record Partial := mkPartial {
  p_kind      : Kind;
  p_time      : Z;
  p_port      : Z;
  p_param_msb : option Z;
  p_param_lsb : option Z
}.

(** Modelled from the spec: [Idle -> CollectingParamNumber ->
    CollectingValue -> Idle], per channel. *)
Inductive ChannelState :=
| Idle
| CollectingParamNumber (p : Partial)
| CollectingValue (p : Partial) (data_msb : Z).

(** One state per MIDI channel, indexed by the low nibble of [status]. *)
Definition Channels := list ChannelState.

Definition init_channels : Channels := repeat Idle 16.

Definition get_channel (ch : nat) (cs : Channels) : ChannelState :=
  nth ch cs Idle.

Fixpoint set_channel (ch : nat) (s : ChannelState) (cs : Channels) : Channels :=
  match cs, ch with
  | [], _ => []
  | _ :: rest, O => s :: rest
  | c :: rest, S ch' => c :: set_channel ch' s rest
  end.

(** Controller numbers of interest (spec 4.4 and 6). *)
Inductive Controller :=
| ParamNumberMsb (k : Kind)
| ParamNumberLsb (k : Kind)
| DataMsb
| DataLsb
| OtherController.

Definition classify (controller : Z) : Controller :=
  if controller =? 101 then ParamNumberMsb KindRpn
  else if controller =? 100 then ParamNumberLsb KindRpn
  else if controller =? 99 then ParamNumberMsb KindNrpn
  else if controller =? 98 then ParamNumberLsb KindNrpn
  else if controller =? 6 then DataMsb
  else if controller =? 38 then DataLsb
  else OtherController.

Definition byte_or_zero (b : option Z) : Z :=
  match b with
  | Some v => v
  | None => 0
  end.

(** Two 7-bit halves, most significant first. *)
Definition combine14 (msb lsb : Z) : Z :=
  Z.lor (Z.shiftl (Z.land msb 0x7f) 7) (Z.land lsb 0x7f).

(** The atomic event [{channel, kind, param-number, value}] of a
    completed aggregation. *)
Definition complete (p : Partial) (ch : Z) (v : Z) : Event :=
  mkEvent (p_time p) (p_port p)
    (Z.lor (kind_type (p_kind p)) ch)
    (combine14 (byte_or_zero (p_param_msb p)) (byte_or_zero (p_param_lsb p)))
    v.

Definition fresh_partial (k : Kind) (event : Event) : Partial :=
  mkPartial k (time event) (port event) None None.

Definition store_param (is_msb : bool) (event : Event) (p : Partial) : Partial :=
  if is_msb
  then mkPartial (p_kind p) (time event) (port event)
         (Some (value event)) (p_param_lsb p)
  else mkPartial (p_kind p) (time event) (port event)
         (p_param_msb p) (Some (value event)).

(** Modelled from the spec: [flush()] completes a channel that holds a
    data MSB and discards any other partial state. *)
Fixpoint flush_channels (ch : Z) (cs : Channels) : Channels * list Event :=
  match cs with
  | [] => ([], [])
  | c :: rest =>
      let '(rest', done) := flush_channels (ch + 1) rest in
      match c with
      | CollectingValue p d => (Idle :: rest', complete p ch d :: done)
      | _ => (Idle :: rest', done)
      end
  end.

(** A parameter-number byte arrives. *)
Definition on_param_number (k : Kind) (is_msb : bool) (event : Event)
    (cs : Channels) : bool * Channels * list Event :=
  let chz := Z.land (status event) 0x0f in
  let ch := Z.to_nat chz in
  let start := CollectingParamNumber (store_param is_msb event (fresh_partial k event)) in
  match get_channel ch cs with
  | Idle => (true, set_channel ch start cs, [])
  | CollectingParamNumber p =>
      if Kind_eqb (p_kind p) k
      then (true, set_channel ch (CollectingParamNumber (store_param is_msb event p)) cs, [])
      else (true, set_channel ch start cs, [])
  | CollectingValue p d => (true, set_channel ch start cs, [complete p chz d])
  end.

(** Modelled from the spec: the transitions of spec 4.4 on one
    Control-Change-shaped event. *)
Definition spec_process (event : Event) (cs : Channels)
    : bool * Channels * list Event :=
  let chz := Z.land (status event) 0x0f in
  let ch := Z.to_nat chz in
  match classify (param event) with
  | ParamNumberMsb k => on_param_number k true event cs
  | ParamNumberLsb k => on_param_number k false event cs
  | DataMsb =>
      match get_channel ch cs with
      | Idle => (false, cs, [])
      | CollectingParamNumber p =>
          (true, set_channel ch (CollectingValue p (value event)) cs, [])
      | CollectingValue p d =>
          (true, set_channel ch (CollectingValue p (value event)) cs,
           [complete p chz d])
      end
  | DataLsb =>
      match get_channel ch cs with
      | Idle => (false, cs, [])
      | CollectingParamNumber p =>
          (true, set_channel ch Idle cs, [complete p chz (value event)])
      | CollectingValue p d =>
          (true, set_channel ch Idle cs,
           [complete p chz (combine14 d (value event))])
      end
  | OtherController =>
      let '(cs', done) := flush_channels 0 cs in (false, cs', done)
  end.

#[export] Instance SpecAggregator : Aggregator Channels := {
  agg_process := spec_process;
  agg_flush := flush_channels 0
}.

Definition init : Rpn Channels := mkRpn init_channels [].

End qxgeditMidiRpn.

(* ------------------------------------------------------------------ *)
(** ** qxgeditMidiDevice.cpp: the capture paths *)

Module qxgeditMidiDevice.
Import qxgeditMidiRpn.

(** What [m_pMidiDevice] is asked to emit to the registered consumers. *)
Inductive Emit :=
| emitReceiveRpn (ch param value : Z)
| emitReceiveNrpn (ch param value : Z)
| emitReceiveSysex (sysex : list Z).

(** *** ALSA sequencer events *)

(** The event types of [snd_seq_event_t] the code tells apart, and the
    other channel messages a port can deliver. *)
Inductive snd_seq_event_type :=
| SND_SEQ_EVENT_NOTEON
| SND_SEQ_EVENT_NOTEOFF
| SND_SEQ_EVENT_KEYPRESS
| SND_SEQ_EVENT_CONTROLLER
| SND_SEQ_EVENT_PGMCHANGE
| SND_SEQ_EVENT_CHANPRESS
| SND_SEQ_EVENT_PITCHBEND
| SND_SEQ_EVENT_CONTROL14
| SND_SEQ_EVENT_NONREGPARAM
| SND_SEQ_EVENT_REGPARAM
| SND_SEQ_EVENT_SYSEX.

(** The fields of [snd_seq_event_t] the code touches: [type],
    [time.tick], [dest.port], [data.control.*] and the bytes behind
    [data.ext]. *)
Record snd_seq_event_t := mk_snd_seq_event {
  ev_type            : snd_seq_event_type;
  ev_time_tick       : Z;
  ev_dest_port       : Z;
  ev_control_channel : Z;
  ev_control_param   : Z;
  ev_control_value   : Z;
  ev_ext             : list Z
}.

Definition is_controller (t : snd_seq_event_type) : bool :=
  match t with
  | SND_SEQ_EVENT_CONTROLLER => true
  | _ => false
  end.

(** [switch (pEv->type)] of the ALSA capture method (467-491). *)
Definition capture_switch (pEv : snd_seq_event_t) : list Emit :=
  match ev_type pEv with
  | SND_SEQ_EVENT_REGPARAM =>
      [emitReceiveRpn (ev_control_channel pEv) (ev_control_param pEv)
         (ev_control_value pEv)]
  | SND_SEQ_EVENT_NONREGPARAM =>
      [emitReceiveNrpn (ev_control_channel pEv) (ev_control_param pEv)
         (ev_control_value pEv)]
  | SND_SEQ_EVENT_SYSEX => [emitReceiveSysex (ev_ext pEv)]
  | _ => []
  end.

(** [void Impl::capture(snd_seq_event_t *pEv)] (445-492). *)
Definition capture_alsa (m_iAlsaPort : Z) (pEv : snd_seq_event_t) : list Emit :=
  if negb (ev_dest_port pEv =? m_iAlsaPort) then []
  else capture_switch pEv.

(** [midi.at(i)]: the byte at index [i] of a [QByteArray], as an
    unsigned value; the masks the code applies give the same result on
    the signed [char] that [at] returns. *)
Definition at_ (midi : list Z) (i : nat) : Z := nth i midi 0.

(** The notification the RtMidi capture method emits for one dequeued
    event (551-563). *)
Definition capture_emit (event : Event) : list Emit :=
  let channel := Z.land (status event) 0xf0 in
  let type := Z.land (status event) 0x70 in
  if type =? RPN then [emitReceiveRpn channel (param event) (value event)]
  else if type =? NRPN then [emitReceiveNrpn channel (param event) (value event)]
  else [].

(** The event [InputRpn::dequeue] builds from a dequeued [Event]
    (170-196), in the fields of the record: the type, the tick, the
    destination port and the control data; [None] is the
    [default: return false] of the switch.  The other fields of the
    event (source, destination client, queue, flags), which the method
    resets, are not part of the record, and [event.port], which
    [InputRpn::process] takes from an [unsigned char], is kept as it
    is. *)
Definition InputRpn_event (event : Event) : option snd_seq_event_t :=
  let build t :=
    Some (mk_snd_seq_event t (time event) (port event)
            (Z.land (status event) 0x0f) (param event) (value event) []) in
  let type := Z.land (status event) 0x70 in
  if type =? CC then build SND_SEQ_EVENT_CONTROLLER
  else if type =? RPN then build SND_SEQ_EVENT_REGPARAM
  else if type =? NRPN then build SND_SEQ_EVENT_NONREGPARAM
  else if type =? CC14 then build SND_SEQ_EVENT_CONTROL14
  else None.

(** How a call of [poll] ends, together with what the sequencer then
    delivers: a timeout ([iPoll == 0]), at least one event ([iPoll > 0],
    read until none is pending), or an error ([iPoll < 0]). *)
Inductive PollResult :=
| PollTimeout
| PollEvents (first : snd_seq_event_t) (more : list snd_seq_event_t)
| PollError.

(** [poll(pfds, nfds, timeout)] of one turn of the input thread, as a
    function of the timeout in milliseconds it is called with. *)
Definition Poll := Z -> PollResult.

Section Capture.
Context {Cache : Type} `{Aggregator Cache}.

(** [bool InputRpn::process(const snd_seq_event_t *ev)] (144-160). *)
Definition InputRpn_process (ev : snd_seq_event_t) (xrpn : Rpn Cache)
    : bool * Rpn Cache :=
  if negb (is_controller (ev_type ev)) then (false, flush xrpn)
  else
    process
      (mkEvent (ev_time_tick ev) (ev_dest_port ev)
         (Z.lor CC (Z.land (ev_control_channel ev) 0x0f))
         (ev_control_param ev) (ev_control_value ev))
      xrpn.

(** [bool InputRpn::dequeue(snd_seq_event_t *ev)] (163-197). *)
Definition InputRpn_dequeue (xrpn : Rpn Cache)
    : option snd_seq_event_t * Rpn Cache :=
  match dequeue xrpn with
  | (None, x) => (None, x)
  | (Some event, x) => (InputRpn_event event, x)
  end.

(** [while (iPoll > 0)] of [InputThread::run] (245-254), over the events
    the sequencer delivers in this cycle. *)
Fixpoint run_input (m_iAlsaPort : Z) (events : list snd_seq_event_t)
    (xrpn : Rpn Cache) : Rpn Cache * list Emit :=
  match events with
  | [] => (xrpn, [])
  | pEv :: rest =>
      let '(consumed, x) := InputRpn_process pEv xrpn in
      let out := if negb consumed then capture_alsa m_iAlsaPort pEv else [] in
      let '(x', outs) := run_input m_iAlsaPort rest x in
      (x', out ++ outs)
  end.

(** [while (xrpn.isPending())] of [InputThread::run] (256-260), by
    recursion on the queue [dequeue] pops. *)
Fixpoint run_pending_queue (m_iAlsaPort : Z) (c : Cache) (q : list Event)
    : Rpn Cache * list Emit :=
  match q with
  | [] => (mkRpn c [], [])
  | event :: rest =>
      let out :=
        match InputRpn_event event with
        | Some ev => capture_alsa m_iAlsaPort ev
        | None => []
        end in
      let '(x, outs) := run_pending_queue m_iAlsaPort c rest in
      (x, out ++ outs)
  end.

Definition run_pending (m_iAlsaPort : Z) (xrpn : Rpn Cache)
    : Rpn Cache * list Emit :=
  run_pending_queue m_iAlsaPort (cache xrpn) (queue xrpn).

(** One turn of [while (m_bRunState && iPoll >= 0)] (239-261). *)
Definition run_cycle (m_iAlsaPort : Z) (poll : Poll)
    (xrpn : Rpn Cache) : Rpn Cache * list Emit :=
  let iPoll := poll 200 in
  let '(x, out) :=
    match iPoll with
    | PollTimeout => (flush xrpn, [])
    | PollEvents first more => run_input m_iAlsaPort (first :: more) xrpn
    | PollError => (xrpn, [])
    end in
  let '(x', outs) := run_pending m_iAlsaPort x in
  (x', out ++ outs).

(** [InputThread::run]: the turns of the loop while the run state is
    set, up to and including the first poll error. *)
Fixpoint run (m_iAlsaPort : Z) (polls : list Poll) (xrpn : Rpn Cache)
    : Rpn Cache * list Emit :=
  match polls with
  | [] => (xrpn, [])
  | poll :: rest =>
      let '(x, out) := run_cycle m_iAlsaPort poll xrpn in
      match poll 200 with
      | PollError => (x, out)
      | _ =>
          let '(x', outs) := run m_iAlsaPort rest x in
          (x', out ++ outs)
      end
  end.

(** [while (m_xrpn.dequeue(event))] of the RtMidi capture method
    (550-564), by recursion on the queue [dequeue] pops. *)
Fixpoint capture_dequeue_queue (c : Cache) (q : list Event)
    : Rpn Cache * list Emit :=
  match q with
  | [] => (mkRpn c [], [])
  | event :: rest =>
      let '(x, outs) := capture_dequeue_queue c rest in
      (x, capture_emit event ++ outs)
  end.

Definition capture_dequeue (xrpn : Rpn Cache) : Rpn Cache * list Emit :=
  capture_dequeue_queue (cache xrpn) (queue xrpn).

(** [void Impl::capture(const QByteArray& midi)] (512-566). *)
Definition capture (midi : list Z) (m_xrpn : Rpn Cache)
    : Rpn Cache * list Emit :=
  if (List.length midi <? 3)%nat then (m_xrpn, [])
  else
    let status := Z.land (at_ midi 0) 0xf0 in
    if status =? 0xf0 then (flush m_xrpn, [emitReceiveSysex midi])
    else if status =? 0xb0 then
      let event :=
        mkEvent 0 0 (Z.lor CC (Z.land (at_ midi 0) 0x0f))
          (Z.land (at_ midi 1) 0x7f) (Z.land (at_ midi 2) 0x7f) in
      (snd (process event m_xrpn), [])
    else capture_dequeue m_xrpn.

(** The messages handed to [capture] one after the other. *)
Fixpoint capture_all (msgs : list (list Z)) (m_xrpn : Rpn Cache)
    : Rpn Cache * list Emit :=
  match msgs with
  | [] => (m_xrpn, [])
  | midi :: rest =>
      let '(x, out) := capture midi m_xrpn in
      let '(x', outs) := capture_all rest x in
      (x', out ++ outs)
  end.

End Capture.

(** The loop of [qxgeditMidiDevice_midiIn_callback] (289-315): [midi]
    is the array assembled so far, the result the arrays passed to
    [capture], in order. *)
Fixpoint midiIn_assemble (message : list Z) (midi : list Z) : list (list Z) :=
  match message with
  | [] => []
  | ch :: rest =>
      let midi := midi ++ [ch] in
      let status := Z.land ch 0xf0 in
      if status =? 0xf0 then midiIn_assemble rest midi
      else if status =? 0xf7 then midi :: midiIn_assemble rest []
      else
        match rest with
        | [] => []
        | b1 :: rest1 =>
            let midi := midi ++ [b1] in
            if (status =? 0xc0) || (status =? 0xd0)
            then midi :: midiIn_assemble rest1 []
            else
              match rest1 with
              | [] => []
              | b2 :: rest2 => (midi ++ [b2]) :: midiIn_assemble rest2 []
              end
        end
  end.

(** [qxgeditMidiDevice_midiIn_callback] with a non-null [user_data]. *)
Definition midiIn_callback {Cache : Type} `{Aggregator Cache}
    (message : list Z) (m_xrpn : Rpn Cache) : Rpn Cache * list Emit :=
  capture_all (midiIn_assemble message []) m_xrpn.

(** The callback called once for each message RtMidi receives, in
    order. *)
Fixpoint midiIn_callbacks {Cache : Type} `{Aggregator Cache}
    (messages : list (list Z)) (m_xrpn : Rpn Cache) : Rpn Cache * list Emit :=
  match messages with
  | [] => (m_xrpn, [])
  | message :: rest =>
      let '(x, out) := midiIn_callback message m_xrpn in
      let '(x', outs) := midiIn_callbacks rest x in
      (x', out ++ outs)
  end.

(** *** Device lists and connections *)

Local Open Scope string_scope.

(** [static const char *c_pszItemSep = " / ";] (623). *)
Definition c_pszItemSep : string := " / ".

(** [QString::number(int)]: the decimal numeral. *)
Definition QString_number (n : Z) : string :=
  NilZero.string_of_int (Z.to_int n).

(** The fields of [s] between occurrences of [sep], left to right;
    [skip] counts the characters of a separator still to be passed. *)
Fixpoint split_go (sep : string) (skip : nat) (cur : string) (s : string)
    : list string :=
  match s with
  | EmptyString => [cur]
  | String c s' =>
      match skip with
      | S k => split_go sep k cur s'
      | O =>
          if prefix sep s
          then cur :: split_go sep (String.length sep - 1) "" s'
          else split_go sep 0 (cur ++ String c "") s'
      end
  end.

Definition split (sep s : string) : list string := split_go sep 0 "" s.

Fixpoint join (sep : string) (fields : list string) : string :=
  match fields with
  | [] => ""
  | [f] => f
  | f :: rest => f ++ sep ++ join sep rest
  end.

(** [QString::section(sep, start, end)] with the default flags and
    [0 <= start <= end]: fields [start] to [end], joined by [sep]. *)
Definition section (sep : string) (start end_ : nat) (s : string) : string :=
  join sep (firstn (end_ - start + 1) (skipn start (split sep s))).

(** Port capability bits of <alsa/seq.h>. *)
Definition SND_SEQ_PORT_CAP_READ       : Z := Z.shiftl 1 0.
Definition SND_SEQ_PORT_CAP_WRITE      : Z := Z.shiftl 1 1.
Definition SND_SEQ_PORT_CAP_SUBS_READ  : Z := Z.shiftl 1 5.
Definition SND_SEQ_PORT_CAP_SUBS_WRITE : Z := Z.shiftl 1 6.
Definition SND_SEQ_PORT_CAP_NO_EXPORT  : Z := Z.shiftl 1 7.

(** What [snd_seq_query_next_port] reports of a port. *)
Record snd_seq_port_info_t := mk_port_info {
  pi_port       : Z;
  pi_name       : string;
  pi_capability : Z
}.

(** What [snd_seq_query_next_client] reports of a client, with its
    ports in the order they are queried. *)
Record snd_seq_client_info_t := mk_client_info {
  ci_client : Z;
  ci_name   : string;
  ci_ports  : list snd_seq_port_info_t
}.

Definition uiPortFlags (bReadable : bool) : Z :=
  if bReadable
  then Z.lor SND_SEQ_PORT_CAP_READ SND_SEQ_PORT_CAP_SUBS_READ
  else Z.lor SND_SEQ_PORT_CAP_WRITE SND_SEQ_PORT_CAP_SUBS_WRITE.

(** The test on [uiPortCapability] (655-656 and 733-734). *)
Definition port_listed (bReadable : bool) (pPortInfo : snd_seq_port_info_t) : bool :=
  (Z.land (pi_capability pPortInfo) (uiPortFlags bReadable) =? uiPortFlags bReadable)%Z
  && (Z.land (pi_capability pPortInfo) SND_SEQ_PORT_CAP_NO_EXPORT =? 0)%Z.

(** The test on [iAlsaClient] (649 and 726). *)
Definition client_listed (m_iAlsaClient : Z) (pClientInfo : snd_seq_client_info_t) : bool :=
  (0 <? ci_client pClientInfo)%Z && negb (ci_client pClientInfo =? m_iAlsaClient)%Z.

(** [sItem] as built for one port (658-662). *)
Definition deviceList_item (pClientInfo : snd_seq_client_info_t)
    (pPortInfo : snd_seq_port_info_t) : string :=
  ((QString_number (ci_client pClientInfo) ++ ":") ++ ci_name pClientInfo)
    ++ c_pszItemSep
    ++ (QString_number (pi_port pPortInfo) ++ ":")
    ++ pi_name pPortInfo.

Fixpoint deviceList_ports (bReadable : bool) (pClientInfo : snd_seq_client_info_t)
    (ports : list snd_seq_port_info_t) : list string :=
  match ports with
  | [] => []
  | pPortInfo :: rest =>
      if port_listed bReadable pPortInfo
      then deviceList_item pClientInfo pPortInfo
             :: deviceList_ports bReadable pClientInfo rest
      else deviceList_ports bReadable pClientInfo rest
  end.

Fixpoint deviceList_clients (m_iAlsaClient : Z) (bReadable : bool)
    (clients : list snd_seq_client_info_t) : list string :=
  match clients with
  | [] => []
  | pClientInfo :: rest =>
      if client_listed m_iAlsaClient pClientInfo
      then (deviceList_ports bReadable pClientInfo (ci_ports pClientInfo)
              ++ deviceList_clients m_iAlsaClient bReadable rest)%list
      else deviceList_clients m_iAlsaClient bReadable rest
  end.

(** [QStringList Impl::deviceList(bool)], ALSA part (629-669);
    [m_pAlsaSeq] is [None] when the sequencer was not opened, and else
    holds the clients the sequencer enumerates. *)
Definition deviceList (m_pAlsaSeq : option (list snd_seq_client_info_t))
    (m_iAlsaClient : Z) (bReadable : bool) : list string :=
  match m_pAlsaSeq with
  | None => []
  | Some clients => deviceList_clients m_iAlsaClient bReadable clients
  end.

(** Whether the character [c] occurs in [s]. *)
Fixpoint has_char (c : ascii) (s : string) : bool :=
  match s with
  | EmptyString => false
  | String a s' => Ascii.eqb a c || has_char c s'
  end.

(** A client or port name that contains neither of the characters the
    list items are cut at. *)
Definition plain_name (s : string) : Prop :=
  has_char ":" s = false /\ has_char "/" s = false.

(** The two name tests of the connect loop (740-747): [true] when the
    item is not skipped by a [continue]. *)
Definition item_matches (sClientName sPortName sItem : string) : bool :=
  let sClientItem := section c_pszItemSep 0 0 sItem in
  let sPortItem := section c_pszItemSep 1 1 sItem in
  if negb (sClientName =? section ":" 1 1 sClientItem) then false
  else if negb (sPortName =? section ":" 1 1 sPortItem) then false
  else true.

(** [(unsigned char) z]: an [int] stored in an [unsigned char]. *)
Definition u8 (z : Z) : Z := z mod 256.

(** [snd_seq_addr_t], whose two members are [unsigned char], and the
    two addresses of a [snd_seq_port_subscribe_t]. *)
Record snd_seq_addr_t := mk_addr {
  addr_client : Z;
  addr_port   : Z
}.

Record snd_seq_port_subscribe_t := mk_subscribe {
  subs_sender : snd_seq_addr_t;
  subs_dest   : snd_seq_addr_t
}.

(** The subscription requested for a matching item (748-762); the
    [int] client and port numbers are stored in the [unsigned char]
    members of [seq_addr]. *)
Definition pPortSubs (bReadable : bool) (m_iAlsaClient m_iAlsaPort : Z)
    (iAlsaClient iAlsaPort : Z) : snd_seq_port_subscribe_t :=
  if bReadable
  then mk_subscribe (mk_addr (u8 iAlsaClient) (u8 iAlsaPort))
         (mk_addr (u8 m_iAlsaClient) (u8 m_iAlsaPort))
  else mk_subscribe (mk_addr (u8 m_iAlsaClient) (u8 m_iAlsaPort))
         (mk_addr (u8 iAlsaClient) (u8 iAlsaPort)).

Section ConnectAlsa.

(** The sequencer behind [m_pAlsaSeq]: its state, the clients it
    enumerates, and [snd_seq_subscribe_port], which returns 0 on success
    and may change the state. *)
Variable Seq : Type.
Variable seq_clients : Seq -> list snd_seq_client_info_t.
Variable snd_seq_subscribe_port :
  Seq -> snd_seq_port_subscribe_t -> Z * Seq.

(** The locals of [connectDeviceList] while it runs: the sequencer,
    [iConnects], and the subscriptions requested so far, each with the
    value [snd_seq_subscribe_port] returned. *)
Record Connecting := mk_connecting {
  co_seq       : Seq;
  iConnects    : Z;
  co_requested : list (snd_seq_port_subscribe_t * Z)
}.

(** [iConnects] is the number of requests that returned 0. *)
Definition counted (co : Connecting) : Prop :=
  iConnects co
  = Z.of_nat (List.length
                (filter (fun r => (snd r =? 0)%Z) (co_requested co))).

(** [while (iter.hasNext())] (738-765). *)
Fixpoint connect_items (bReadable : bool) (m_iAlsaClient m_iAlsaPort : Z)
    (pClientInfo : snd_seq_client_info_t) (pPortInfo : snd_seq_port_info_t)
    (items : list string) (co : Connecting) : Connecting :=
  match items with
  | [] => co
  | sItem :: rest =>
      if item_matches (ci_name pClientInfo) (pi_name pPortInfo) sItem
      then
        let subs := pPortSubs bReadable m_iAlsaClient m_iAlsaPort
                      (ci_client pClientInfo) (pi_port pPortInfo) in
        let '(rc, seq) := snd_seq_subscribe_port (co_seq co) subs in
        connect_items bReadable m_iAlsaClient m_iAlsaPort pClientInfo pPortInfo rest
          (mk_connecting seq
             (if (rc =? 0)%Z then (iConnects co + 1)%Z else iConnects co)
             (co_requested co ++ [(subs, rc)])%list)
      else
        connect_items bReadable m_iAlsaClient m_iAlsaPort pClientInfo pPortInfo rest co
  end.

(** [while (snd_seq_query_next_port(...) >= 0)] (730-767). *)
Fixpoint connect_ports (bReadable : bool) (m_iAlsaClient m_iAlsaPort : Z)
    (list_ : list string) (pClientInfo : snd_seq_client_info_t)
    (ports : list snd_seq_port_info_t) (co : Connecting) : Connecting :=
  match ports with
  | [] => co
  | pPortInfo :: rest =>
      connect_ports bReadable m_iAlsaClient m_iAlsaPort list_ pClientInfo rest
        (if port_listed bReadable pPortInfo
         then connect_items bReadable m_iAlsaClient m_iAlsaPort
                pClientInfo pPortInfo list_ co
         else co)
  end.

(** [while (snd_seq_query_next_client(...) >= 0)] (724-769). *)
Fixpoint connect_clients (bReadable : bool) (m_iAlsaClient m_iAlsaPort : Z)
    (list_ : list string) (clients : list snd_seq_client_info_t)
    (co : Connecting) : Connecting :=
  match clients with
  | [] => co
  | pClientInfo :: rest =>
      connect_clients bReadable m_iAlsaClient m_iAlsaPort list_ rest
        (if client_listed m_iAlsaClient pClientInfo
         then connect_ports bReadable m_iAlsaClient m_iAlsaPort list_
                pClientInfo (ci_ports pClientInfo) co
         else co)
  end.

(** [bool Impl::connectDeviceList(bool, const QStringList&)] built with
    [CONFIG_ALSA_MIDI] (694-771, 806): the returned flag, the sequencer
    afterwards and the subscriptions requested. *)
Definition connectDeviceList_alsa (m_pAlsaSeq : option Seq)
    (m_iAlsaClient m_iAlsaPort : Z) (bReadable : bool) (list_ : list string)
    : bool * option Seq * list (snd_seq_port_subscribe_t * Z) :=
  match list_ with
  | [] => (false, m_pAlsaSeq, [])
  | _ :: _ =>
      match m_pAlsaSeq with
      | None => (false, None, [])
      | Some seq =>
          let co :=
            connect_clients bReadable m_iAlsaClient m_iAlsaPort list_
              (seq_clients seq) (mk_connecting seq 0 []) in
          ((0 <? iConnects co)%Z, Some (co_seq co), co_requested co)
      end
  end.

End ConnectAlsa.

Arguments mk_connecting {Seq} _ _ _.
Arguments co_seq {Seq} _.
Arguments iConnects {Seq} _.
Arguments co_requested {Seq} _.

(** *** RtMidi ports *)

(** How a call of [RtMidi::openPort] ends: the port is open, the call
    returns with the port not open (the library only warned), or the
    call throws [RtMidiError]. *)
Inductive OpenResult :=
| PortOpened
| PortNotOpened
| PortThrows.

(** An [RtMidiIn] or [RtMidiOut] object: the names [getPortName]
    gives, the port that is open, if any, and how [openPort] would end
    for each port number. *)
Record RtMidi := mk_RtMidi {
  rt_names    : list string;
  rt_open     : option nat;
  rt_openPort : nat -> OpenResult
}.

Definition isPortOpen (m : RtMidi) : bool :=
  match rt_open m with
  | Some _ => true
  | None => false
  end.

Definition closePort (m : RtMidi) : RtMidi :=
  mk_RtMidi (rt_names m) None (rt_openPort m).

(** How a call ends that may let an exception escape. *)
Inductive Outcome (A : Type) :=
| Returns (a : A)
| Throws.
Arguments Returns {A} _.
Arguments Throws {A}.

(** [for (unsigned int i = 0; i < nports; ++i)] (783-789, 795-801),
    from port number [i] on; the result carries [iConnects]. *)
Fixpoint connect_rtmidi_ports (portName : string) (m : RtMidi) (i : nat)
    (names : list string) : Outcome (RtMidi * Z) :=
  match names with
  | [] => Returns (m, 0%Z)
  | name :: rest =>
      if name =? portName then
        match rt_openPort m i with
        | PortOpened =>
            Returns (mk_RtMidi (rt_names m) (Some i) (rt_openPort m), 1%Z)
        | PortNotOpened => Returns (m, 1%Z)
        | PortThrows => Throws
        end
      else connect_rtmidi_ports portName m (S i) rest
  end.

(** [bool Impl::connectDeviceList(bool, const QStringList&)] built with
    [CONFIG_RTMIDI] (694-700, 773-806); [m_pMidi] is [m_pMidiIn] when
    [bReadable] and [m_pMidiOut] otherwise, [None] for a null pointer. *)
Definition connectDeviceList_rtmidi (m_pMidi : option RtMidi)
    (list_ : list string) : Outcome (bool * option RtMidi) :=
  match list_ with
  | [] => Returns (false, m_pMidi)
  | portName :: _ =>
      match m_pMidi with
      | None => Returns (false, None)
      | Some m =>
          match connect_rtmidi_ports portName (closePort m) 0
                  (rt_names m) with
          | Returns (m', iConnects) => Returns ((0 <? iConnects)%Z, Some m')
          | Throws => Throws
          end
      end
  end.

(** *** The events handed to the aggregator *)

(** The [Event] that [InputRpn::process] fills in from a sequencer
    event (151-157). *)
Definition InputRpn_encode (ev : snd_seq_event_t) : Event :=
  mkEvent (ev_time_tick ev) (ev_dest_port ev)
    (Z.lor CC (Z.land (ev_control_channel ev) 0x0f))
    (ev_control_param ev) (ev_control_value ev).

(** The [Event] that the RtMidi capture method fills in from a
    Control-Change message (542-546). *)
Definition capture_event (midi : list Z) : Event :=
  mkEvent 0 0 (Z.lor CC (Z.land (at_ midi 0) 0x0f))
    (Z.land (at_ midi 1) 0x7f) (Z.land (at_ midi 2) 0x7f).

(** *** Sending SysEx *)

(** What leaves the device: the SysEx event given to
    [snd_seq_event_output_direct], sent from [source_port], the
    [unsigned char] [source.port] of the event, to the subscribers of
    that port, or the message given to [RtMidiOut::sendMessage]. *)
Inductive Sent :=
| snd_seq_event_output_direct (source_port : Z) (sysex : list Z)
| sendMessage (message : list Z).

(** The [iSysex] bytes at [pSysex]. *)
Definition bytes_at (pSysex : list Z) (iSysex : Z) : list Z :=
  firstn (Z.to_nat iSysex) pSysex.

(** [void Impl::sendSysex(unsigned char *, unsigned short)] built with
    [CONFIG_ALSA_MIDI] (577-611); [m_pAlsaSeq] is [None] for a null
    sequencer.  [snd_seq_ev_set_source] stores the [int] [m_iAlsaPort]
    in the [unsigned char] [source.port] (600). *)
Definition sendSysex_alsa_raw {Seq : Type} (m_pAlsaSeq : option Seq)
    (m_iAlsaPort : Z) (pSysex : list Z) (iSysex : Z) : list Sent :=
  match m_pAlsaSeq with
  | None => []
  | Some _ =>
      [snd_seq_event_output_direct (u8 m_iAlsaPort) (bytes_at pSysex iSysex)]
  end.

(** [void Impl::sendSysex(unsigned char *, unsigned short)] built with
    [CONFIG_RTMIDI] (577-586, 613-619). *)
Definition sendSysex_rtmidi_raw (m_pMidiOut : option RtMidi)
    (pSysex : list Z) (iSysex : Z) : list Sent :=
  match m_pMidiOut with
  | None => []
  | Some m =>
      if isPortOpen m then [sendMessage (bytes_at pSysex iSysex)] else []
  end.

(** [(unsigned short) sysex.length()] (573). *)
Definition sysex_length (sysex : list Z) : Z :=
  Z.of_nat (List.length sysex) mod 65536.

(** [void Impl::sendSysex(const QByteArray&)] (571-574), for each of
    the two builds. *)
Definition sendSysex_alsa {Seq : Type} (m_pAlsaSeq : option Seq)
    (m_iAlsaPort : Z) (sysex : list Z) : list Sent :=
  sendSysex_alsa_raw m_pAlsaSeq m_iAlsaPort sysex (sysex_length sysex).

Definition sendSysex_rtmidi (m_pMidiOut : option RtMidi) (sysex : list Z)
    : list Sent :=
  sendSysex_rtmidi_raw m_pMidiOut sysex (sysex_length sysex).


End qxgeditMidiDevice.

(* ------------------------------------------------------------------ *)
(** ** Map keys *)

Import XGParam.

Lemma XGParamKey_eq (a b : XGParamKey) :
  high a = high b -> mid a = mid b -> low a = low b -> a = b.
Proof. destruct a, b; simpl; congruence. Qed.

Lemma XGParamKey_lt_spec (a b : XGParamKey) :
  XGParamKey_lt a b = true <-> XGParamKey_lex a b.
Proof.
  unfold XGParamKey_lt, XGParamKey_lex.
  destruct (Z.eqb_spec (high a) (high b)) as [Hh | Hh]; simpl.
  - destruct (Z.eqb_spec (mid a) (mid b)) as [Hm | Hm]; simpl;
      rewrite Z.ltb_lt; lia.
  - rewrite Z.ltb_lt; lia.
Qed.

Lemma XGParamKey_lt_false (a b : XGParamKey) :
  XGParamKey_lt a b = false <-> ~ XGParamKey_lex a b.
Proof.
  rewrite <- XGParamKey_lt_spec.
  destruct (XGParamKey_lt a b); split; intro; congruence.
Qed.

(** X1: [XGParamKey::operator<] is transitive. *)
Lemma XGParamKey_lt_trans (a b c : XGParamKey) :
  XGParamKey_lt a b = true -> XGParamKey_lt b c = true ->
  XGParamKey_lt a c = true.
Proof.
  rewrite !XGParamKey_lt_spec. unfold XGParamKey_lex. lia.
Qed.

(** C4: [XGParamKey::operator<] is the lexicographic strict order on
    address triples: [a < b] exactly when high is smaller, or high is
    equal and mid is smaller, or high and mid are equal and low is
    smaller; and of [a < b], [a = b], [b < a] exactly one holds. *)
Theorem XGParamKey_lt_lexicographic : forall a b : XGParamKey,
  (XGParamKey_lt a b = true <-> XGParamKey_lex a b)
  /\ ((XGParamKey_lt a b = true /\ a <> b /\ XGParamKey_lt b a = false)
      \/ (XGParamKey_lt a b = false /\ a = b /\ XGParamKey_lt b a = false)
      \/ (XGParamKey_lt a b = false /\ a <> b /\ XGParamKey_lt b a = true)).
Proof.
  intros a b. split; [apply XGParamKey_lt_spec|].
  assert (Hne : forall x y : XGParamKey,
             XGParamKey_lex x y -> x <> y).
  { intros x y Hl ->. unfold XGParamKey_lex in Hl. lia. }
  destruct (Z.lt_total (high a) (high b)) as [Hh | [Hh | Hh]];
    [left | | right; right].
  - rewrite XGParamKey_lt_spec, XGParamKey_lt_false.
    unfold XGParamKey_lex. repeat split; try lia.
    apply Hne. unfold XGParamKey_lex. lia.
  - destruct (Z.lt_total (mid a) (mid b)) as [Hm | [Hm | Hm]];
      [left | | right; right].
    + rewrite XGParamKey_lt_spec, XGParamKey_lt_false.
      unfold XGParamKey_lex. repeat split; try lia.
      apply Hne. unfold XGParamKey_lex. lia.
    + destruct (Z.lt_total (low a) (low b)) as [Hl | [Hl | Hl]];
        [left | right; left | right; right].
      * rewrite XGParamKey_lt_spec, XGParamKey_lt_false.
        unfold XGParamKey_lex. repeat split; try lia.
        apply Hne. unfold XGParamKey_lex. lia.
      * rewrite !XGParamKey_lt_false. unfold XGParamKey_lex.
        repeat split; try lia. now apply XGParamKey_eq.
      * rewrite XGParamKey_lt_spec, XGParamKey_lt_false.
        unfold XGParamKey_lex. repeat split; try lia.
        intros ->. lia.
    + rewrite XGParamKey_lt_spec, XGParamKey_lt_false.
      unfold XGParamKey_lex. repeat split; try lia.
      intros ->. lia.
  - rewrite XGParamKey_lt_spec, XGParamKey_lt_false.
    unfold XGParamKey_lex. repeat split; try lia.
    intros ->. lia.
Qed.

(** With equal channels the comparator of [XGRpnParamKey] never looks
    at the parameter number of its left operand. *)
Lemma XGRpnParamKey_lt_same_channel (a b : XGRpnParamKey) :
  channel a = channel b ->
  XGRpnParamKey_lt a b = (channel a <? param b).
Proof.
  intros Hc. unfold XGRpnParamKey_lt.
  rewrite Hc, Z.eqb_refl. reflexivity.
Qed.

(** C2: on the keys (channel 0, param 5) and (channel 0, param 3)
    [XGRpnParamKey::operator<] answers [true] in both directions,
    although 5 < 3 is false: the order by (channel, param) is not what
    the comparator computes. *)
Theorem XGRpnParamKey_lt_not_lex :
  XGRpnParamKey_lt (mkXGRpnParamKey 0 5) (mkXGRpnParamKey 0 3) = true
  /\ XGRpnParamKey_lt (mkXGRpnParamKey 0 3) (mkXGRpnParamKey 0 5) = true
  /\ ~ XGRpnParamKey_lex (mkXGRpnParamKey 0 5) (mkXGRpnParamKey 0 3).
Proof.
  repeat split. unfold XGRpnParamKey_lex. simpl. lia.
Qed.

(** ** The key-parameter observer *)

(** C8: the observer of a [XGParamMap] answers an update and a reset
    alike, by exactly one call of [notify_reset()] on the map it
    belongs to. *)
Theorem Observer_forwards_notify_reset :
  forall (n : Notification) (o : Observer),
    Observer_dispatch n o = [Call_notify_reset (m_map o)]
    /\ Observer_update o = Observer_reset o.
Proof.
  intros n o. split; [destruct n|]; reflexivity.
Qed.

(* ------------------------------------------------------------------ *)
(** ** The capture paths *)

Import qxgeditMidiRpn qxgeditMidiDevice.

Section CaptureFacts.
Context {Cache : Type} `{Aggregator Cache}.

(** The loops over the queue obey the equations of the [while] loops
    they stand for. *)
Lemma run_pending_loop (m_iAlsaPort : Z) (xrpn : Rpn Cache) :
  run_pending m_iAlsaPort xrpn =
  if isPending xrpn then
    let '(oev, x) := InputRpn_dequeue xrpn in
    let out := match oev with
               | Some ev => capture_alsa m_iAlsaPort ev
               | None => []
               end in
    let '(x', outs) := run_pending m_iAlsaPort x in
    (x', out ++ outs)
  else (xrpn, []).
Proof.
  destruct xrpn as [c q].
  unfold run_pending, isPending, InputRpn_dequeue, dequeue; simpl.
  destruct q as [| event rest]; reflexivity.
Qed.

Lemma capture_dequeue_loop (m_xrpn : Rpn Cache) :
  capture_dequeue m_xrpn =
  match dequeue m_xrpn with
  | (Some event, x) =>
      let '(x', outs) := capture_dequeue x in
      (x', capture_emit event ++ outs)
  | (None, x) => (x, [])
  end.
Proof.
  destruct m_xrpn as [c q].
  unfold capture_dequeue, dequeue; simpl.
  destruct q as [| event rest]; reflexivity.
Qed.

Lemma run_pending_queue_state (m_iAlsaPort : Z) (c : Cache) (q : list Event) :
  fst (run_pending_queue m_iAlsaPort c q) = mkRpn c [].
Proof.
  induction q as [| event rest IH]; simpl; [reflexivity|].
  destruct (run_pending_queue m_iAlsaPort c rest); simpl in *. exact IH.
Qed.

Lemma capture_dequeue_queue_state (c : Cache) (q : list Event) :
  fst (capture_dequeue_queue c q) = mkRpn c [].
Proof.
  induction q as [| event rest IH]; simpl; [reflexivity|].
  destruct (capture_dequeue_queue c rest); simpl in *. exact IH.
Qed.

Lemma flush_cache (x : Rpn Cache) :
  cache (flush x) = fst (agg_flush (cache x)).
Proof.
  unfold flush. destruct (agg_flush (cache x)); reflexivity.
Qed.

(** An event that is not a Control-Change flushes the aggregator and is
    left to the caller. *)
Lemma InputRpn_process_not_controller (ev : snd_seq_event_t) (x : Rpn Cache) :
  is_controller (ev_type ev) = false ->
  InputRpn_process ev x = (false, flush x).
Proof.
  intros Hty. unfold InputRpn_process. rewrite Hty. reflexivity.
Qed.

Lemma capture_short (midi : list Z) (x : Rpn Cache) :
  (List.length midi < 3)%nat -> capture midi x = (x, []).
Proof.
  intros Hlen. unfold capture.
  apply Nat.ltb_lt in Hlen. rewrite Hlen. reflexivity.
Qed.

Lemma capture_sysex (midi : list Z) (x : Rpn Cache) :
  (3 <= List.length midi)%nat ->
  Z.land (at_ midi 0) 0xf0 = 0xf0 ->
  capture midi x = (flush x, [emitReceiveSysex midi]).
Proof.
  intros Hlen Hst. unfold capture.
  apply Nat.ltb_ge in Hlen. rewrite Hlen, Hst. reflexivity.
Qed.

(** A message of three bytes or more that is neither SysEx nor
    Control-Change only delivers what is queued: the per-channel state
    is the one before the message. *)
Lemma capture_other_keeps_cache (midi : list Z) (x : Rpn Cache) :
  (3 <= List.length midi)%nat ->
  Z.land (at_ midi 0) 0xf0 <> 0xf0 ->
  Z.land (at_ midi 0) 0xf0 <> 0xb0 ->
  fst (capture midi x) = mkRpn (cache x) [].
Proof.
  intros Hlen Hsx Hcc. unfold capture.
  apply Nat.ltb_ge in Hlen. rewrite Hlen.
  apply Z.eqb_neq in Hsx. apply Z.eqb_neq in Hcc. rewrite Hsx, Hcc.
  apply capture_dequeue_queue_state.
Qed.

End CaptureFacts.

(** The type bits select the notification; the channel passed on is
    [status & 0xf0] in the RtMidi path and [status & 0x0f] in the ALSA
    path. *)
Lemma land_0x70_0xf0 (s : Z) :
  Z.land (Z.land s 0xf0) 0x70 = Z.land s 0x70.
Proof. rewrite <- Z.land_assoc. reflexivity. Qed.

Lemma land_0xf0_0x0f (s : Z) : Z.land (Z.land s 0xf0) 0x0f = 0.
Proof. rewrite <- Z.land_assoc. simpl. apply Z.land_0_r. Qed.

Lemma capture_emit_channel (event : Event) (e : Emit) :
  In e (capture_emit event) ->
  exists ch,
    (e = emitReceiveRpn ch (param event) (value event)
     \/ e = emitReceiveNrpn ch (param event) (value event))
    /\ ch = Z.land (status event) 0xf0
    /\ Z.land ch 0x0f = 0
    /\ ch <> 0.
Proof.
  unfold capture_emit. intros Hin.
  exists (Z.land (status event) 0xf0).
  assert (Hnz : Z.land (status event) 0x70 <> 0 ->
                Z.land (status event) 0xf0 <> 0).
  { intros Hty Hz. apply Hty. rewrite <- land_0x70_0xf0, Hz. reflexivity. }
  destruct (Z.eqb_spec (Z.land (status event) 0x70) RPN) as [Hr | Hr].
  - destruct Hin as [<- | []]. repeat split; auto using land_0xf0_0x0f.
    apply Hnz. rewrite Hr. discriminate.
  - destruct (Z.eqb_spec (Z.land (status event) 0x70) NRPN) as [Hn | Hn].
    + destruct Hin as [<- | []]. repeat split; auto using land_0xf0_0x0f.
      apply Hnz. rewrite Hn. discriminate.
    + destruct Hin.
Qed.

(** No notification of the RtMidi path carries a MIDI channel
    different from 0 in its channel field, and none carries 0 either. *)
Lemma capture_emit_never_channel (event : Event) (ch p v : Z) :
  In (emitReceiveRpn ch p v) (capture_emit event)
  \/ In (emitReceiveNrpn ch p v) (capture_emit event) ->
  ~ (0 <= ch < 16).
Proof.
  intros Hin Hrange.
  assert (Hch : Z.land ch 0x0f = 0 /\ ch <> 0).
  { destruct Hin as [Hin | Hin];
      destruct (capture_emit_channel _ _ Hin) as (c & [He | He] & _ & H0 & H1);
      inversion He; subst; auto. }
  destruct Hch as [Hlow Hnz]. apply Hnz.
  change 0x0f with (Z.ones 4) in Hlow. rewrite Z.land_ones in Hlow by lia.
  rewrite Z.mod_small in Hlow by (simpl; lia). exact Hlow.
Qed.

(** The ALSA path hands on the low nibble of [status]. *)
Lemma InputRpn_event_channel (event : Event) (ev : snd_seq_event_t) :
  InputRpn_event event = Some ev ->
  ev_control_channel ev = Z.land (status event) 0x0f
  /\ ev_control_param ev = param event
  /\ ev_control_value ev = value event
  /\ ev_dest_port ev = port event.
Proof.
  unfold InputRpn_event. intros Hev.
  repeat match type of Hev with
         | (if ?c then _ else _) = _ => destruct c
         end; inversion Hev; subst; simpl; auto.
Qed.

(** The state machine of the spec on the sequences of its section 8:
    the four messages of an NRPN on channel 2 complete one event and
    leave every channel idle; the first two messages and a flush
    complete nothing and leave every channel idle. *)
Example aggregator_roundtrip :
  snd (process (mkEvent 0 0 0x12 38 3)
         (snd (process (mkEvent 0 0 0x12 6 4)
                 (snd (process (mkEvent 0 0 0x12 98 8)
                         (snd (process (mkEvent 0 0 0x12 99 2) init)))))))
  = mkRpn init_channels [mkEvent 0 0 0x32 264 515].
Proof. reflexivity. Qed.

Example aggregator_flush_discards :
  flush (snd (process (mkEvent 0 0 0x12 98 8)
                (snd (process (mkEvent 0 0 0x12 99 2) init))))
  = mkRpn init_channels [].
Proof. reflexivity. Qed.

(** A data MSB with no LSB after it is completed by the flush of the
    next poll timeout and delivered in the same turn of the input
    thread. *)
Example run_timeout_completes :
  snd (run 0
         [(fun _ =>
             PollEvents
               (mk_snd_seq_event SND_SEQ_EVENT_CONTROLLER 0 0 2 99 2 [])
               [mk_snd_seq_event SND_SEQ_EVENT_CONTROLLER 0 0 2 98 8 [];
                mk_snd_seq_event SND_SEQ_EVENT_CONTROLLER 0 0 2 6 4 []]);
          (fun _ => PollTimeout)]
         init)
  = [emitReceiveNrpn 2 264 4].
Proof. reflexivity. Qed.

(** C1: the canonical NRPN sequence on MIDI channel 2 (parameter
    MSB 2, LSB 8, data MSB 4, LSB 3), followed in the RtMidi path by
    the note-on that makes the capture method deliver it.  The RtMidi
    path notifies channel 0x30, the type bits of the status; the ALSA
    path notifies channel 2. *)
Theorem capture_rtmidi_channel_is_type_nibble :
  snd (capture_all
         [[0xB2; 99; 2]; [0xB2; 98; 8]; [0xB2; 6; 4]; [0xB2; 38; 3];
          [0x92; 60; 100]] init)
  = [emitReceiveNrpn 0x30 264 515]
  /\ snd (run_cycle 0
            (fun _ =>
               PollEvents
                 (mk_snd_seq_event SND_SEQ_EVENT_CONTROLLER 0 0 2 99 2 [])
                 [mk_snd_seq_event SND_SEQ_EVENT_CONTROLLER 0 0 2 98 8 [];
                  mk_snd_seq_event SND_SEQ_EVENT_CONTROLLER 0 0 2 6 4 [];
                  mk_snd_seq_event SND_SEQ_EVENT_CONTROLLER 0 0 2 38 3 []])
            init)
     = [emitReceiveNrpn 2 264 515].
Proof. split; vm_compute; reflexivity. Qed.

(** With a data MSB collected on channel 2, a Program Change leaves the
    aggregator of the RtMidi capture method as it was, the partial state
    still in place and not what a flush would leave, and nothing reaches
    the consumers. *)
Lemma capture_program_change_keeps_partial_state :
  Z.land (at_ [0xC2; 5] 0) 0xf0 <> 0xb0
  /\ capture [0xC2; 5]
       (fst (capture_all [[0xB2; 99; 2]; [0xB2; 98; 8]; [0xB2; 6; 4]] init))
     = (fst (capture_all [[0xB2; 99; 2]; [0xB2; 98; 8]; [0xB2; 6; 4]] init), [])
  /\ get_channel 2
       (cache (fst (capture [0xC2; 5]
          (fst (capture_all [[0xB2; 99; 2]; [0xB2; 98; 8]; [0xB2; 6; 4]] init)))))
     = CollectingValue (mkPartial KindNrpn 0 0 (Some 2) (Some 8)) 4
  /\ fst (capture [0xC2; 5]
            (fst (capture_all [[0xB2; 99; 2]; [0xB2; 98; 8]; [0xB2; 6; 4]] init)))
     <> flush (fst (capture_all [[0xB2; 99; 2]; [0xB2; 98; 8]; [0xB2; 6; 4]] init)).
Proof.
  repeat split; try (vm_compute; reflexivity); vm_compute; discriminate.
Qed.

(** C3: the parameter number and a data MSB of an NRPN on channel 2,
    then a message that is not a Control-Change.  In the RtMidi path,
    callback and capture method together, a note-on leaves the data MSB
    collected and emits nothing; so does the SysEx message F0 43 F7,
    which is neither emitted nor followed by a flush.  In the ALSA path
    the note-on flushes the aggregator, which completes the NRPN with
    the value 4 and leaves every channel idle. *)
Theorem rtmidi_non_controller_keeps_partial_state :
  snd (midiIn_callbacks
         [[0xB2; 99; 2]; [0xB2; 98; 8]; [0xB2; 6; 4]; [0x92; 60; 100]] init)
  = []
  /\ get_channel 2
       (cache (fst (midiIn_callbacks
                      [[0xB2; 99; 2]; [0xB2; 98; 8]; [0xB2; 6; 4];
                       [0x92; 60; 100]] init)))
     = CollectingValue (mkPartial KindNrpn 0 0 (Some 2) (Some 8)) 4
  /\ midiIn_callbacks
       [[0xB2; 99; 2]; [0xB2; 98; 8]; [0xB2; 6; 4]; [0xF0; 0x43; 0xF7]] init
     = midiIn_callbacks [[0xB2; 99; 2]; [0xB2; 98; 8]; [0xB2; 6; 4]] init
  /\ get_channel 2
       (cache (fst (midiIn_callbacks
                      [[0xB2; 99; 2]; [0xB2; 98; 8]; [0xB2; 6; 4]] init)))
     = CollectingValue (mkPartial KindNrpn 0 0 (Some 2) (Some 8)) 4
  /\ run_input 0
       [mk_snd_seq_event SND_SEQ_EVENT_CONTROLLER 0 0 2 99 2 [];
        mk_snd_seq_event SND_SEQ_EVENT_CONTROLLER 0 0 2 98 8 [];
        mk_snd_seq_event SND_SEQ_EVENT_CONTROLLER 0 0 2 6 4 [];
        mk_snd_seq_event SND_SEQ_EVENT_NOTEON 0 0 2 60 100 []]
       init
     = (mkRpn init_channels [mkEvent 0 0 0x32 264 4], [])
  /\ snd (run_cycle 0
            (fun _ =>
               PollEvents
                 (mk_snd_seq_event SND_SEQ_EVENT_CONTROLLER 0 0 2 99 2 [])
                 [mk_snd_seq_event SND_SEQ_EVENT_CONTROLLER 0 0 2 98 8 [];
                  mk_snd_seq_event SND_SEQ_EVENT_CONTROLLER 0 0 2 6 4 [];
                  mk_snd_seq_event SND_SEQ_EVENT_NOTEON 0 0 2 60 100 []])
            init)
     = [emitReceiveNrpn 2 264 4].
Proof. repeat split; vm_compute; reflexivity. Qed.

(** C7: when the poll of a turn of the input thread, called with a
    timeout of 200 ms, times out, the turn starts by flushing the
    aggregator: what follows is the delivery loop on the flushed
    aggregator, which ends with the per-channel state a flush leaves and
    nothing pending; with the state machine of the spec, every channel
    is idle afterwards. *)
Theorem run_cycle_timeout_flushes :
  forall (m_iAlsaPort : Z) (poll : Poll),
    poll 200 = PollTimeout ->
    (forall (Cache : Type) (A : Aggregator Cache) (xrpn : Rpn Cache),
        run_cycle m_iAlsaPort poll xrpn
        = run_pending m_iAlsaPort (flush xrpn)
        /\ cache (fst (run_cycle m_iAlsaPort poll xrpn))
           = fst (agg_flush (cache xrpn))
        /\ isPending (fst (run_cycle m_iAlsaPort poll xrpn)) = false)
    /\ (forall xrpn : Rpn Channels,
           Forall (fun c => c = Idle)
             (cache (fst (run_cycle m_iAlsaPort poll xrpn)))).
Proof.
  intros m_iAlsaPort poll Hpoll.
  assert (Hcycle : forall (Cache : Type) (A : Aggregator Cache) (xrpn : Rpn Cache),
             run_cycle m_iAlsaPort poll xrpn
             = run_pending m_iAlsaPort (flush xrpn)).
  { intros Cache A xrpn. unfold run_cycle. rewrite Hpoll.
    destruct (run_pending m_iAlsaPort (flush xrpn)). reflexivity. }
  assert (Hstate : forall (Cache : Type) (A : Aggregator Cache) (xrpn : Rpn Cache),
             fst (run_cycle m_iAlsaPort poll xrpn)
             = mkRpn (fst (agg_flush (cache xrpn))) []).
  { intros Cache A xrpn. rewrite Hcycle. unfold run_pending.
    rewrite run_pending_queue_state, flush_cache. reflexivity. }
  split.
  - intros Cache A xrpn. rewrite Hstate. auto.
  - intros xrpn. rewrite Hstate. simpl.
    generalize 0 as ch. induction (cache xrpn) as [| c rest IH]; intros ch; simpl.
    + constructor.
    + specialize (IH (ch + 1)).
      destruct (flush_channels (ch + 1) rest) as [rest' done].
      destruct c; simpl; constructor; auto.
Qed.

Lemma run_cycle_timeout_flushes_witness :
  (fun _ : Z => PollTimeout) 200 = PollTimeout
  /\ (forall (Cache : Type) (A : Aggregator Cache) (xrpn : Rpn Cache),
         run_cycle 0 (fun _ => PollTimeout) xrpn
         = run_pending 0 (flush xrpn)
         /\ cache (fst (run_cycle 0 (fun _ => PollTimeout) xrpn))
            = fst (agg_flush (cache xrpn))
         /\ isPending (fst (run_cycle 0 (fun _ => PollTimeout) xrpn)) = false)
  /\ (forall xrpn : Rpn Channels,
         Forall (fun c => c = Idle)
           (cache (fst (run_cycle 0 (fun _ => PollTimeout) xrpn)))).
Proof.
  split; [reflexivity|].
  exact (run_cycle_timeout_flushes 0 (fun _ => PollTimeout) eq_refl).
Defined.

(** C9: the ALSA capture method emits nothing for an event whose
    destination port is not the port of the device. *)
Theorem capture_alsa_other_port :
  forall (m_iAlsaPort : Z) (pEv : snd_seq_event_t),
    ev_dest_port pEv <> m_iAlsaPort ->
    capture_alsa m_iAlsaPort pEv = [].
Proof.
  intros m_iAlsaPort pEv Hport. unfold capture_alsa.
  apply Z.eqb_neq in Hport. rewrite Hport. reflexivity.
Qed.

Lemma capture_alsa_other_port_witness :
  ev_dest_port (mk_snd_seq_event SND_SEQ_EVENT_SYSEX 0 1 0 0 0 [0xF0; 0xF7]) <> 0
  /\ capture_alsa 0 (mk_snd_seq_event SND_SEQ_EVENT_SYSEX 0 1 0 0 0 [0xF0; 0xF7])
     = [].
Proof.
  assert (Hport : ev_dest_port
            (mk_snd_seq_event SND_SEQ_EVENT_SYSEX 0 1 0 0 0 [0xF0; 0xF7]) <> 0)
    by (simpl; lia).
  split; [exact Hport|].
  exact (capture_alsa_other_port 0 _ Hport).
Defined.

(** C10: the RtMidi capture method returns at once for a message of
    fewer than three bytes, leaving the aggregator as it was and
    emitting nothing; such are the two-byte Program Change and Channel
    Pressure messages, which the input callback assembles and passes to
    the capture method. *)
Theorem capture_short_message_ignored :
  forall (Cache : Type) (A : Aggregator Cache) (x : Rpn Cache)
         (midi : list Z) (b data : Z),
    (List.length midi < 3)%nat ->
    Z.land b 0xf0 = 0xc0 \/ Z.land b 0xf0 = 0xd0 ->
    capture midi x = (x, [])
    /\ midiIn_assemble [b; data] [] = [[b; data]]
    /\ midiIn_callback [b; data] x = (x, []).
Proof.
  intros Cache A x midi b data Hlen Hst.
  assert (Hasm : midiIn_assemble [b; data] [] = [[b; data]]).
  { simpl. destruct Hst as [-> | ->]; reflexivity. }
  repeat split.
  - now apply capture_short.
  - exact Hasm.
  - unfold midiIn_callback. rewrite Hasm. cbn [capture_all].
    rewrite capture_short by (simpl; lia). reflexivity.
Qed.

Lemma capture_short_message_ignored_witness :
  (List.length [0xC2; 5] < 3)%nat
  /\ (Z.land 0xC2 0xf0 = 0xc0 \/ Z.land 0xC2 0xf0 = 0xd0)
  /\ capture [0xC2; 5] init = (init, [])
  /\ midiIn_assemble [0xC2; 5] [] = [[0xC2; 5]]
  /\ midiIn_callback [0xC2; 5] init = (init, []).
Proof.
  assert (H1 : (List.length [0xC2; 5] < 3)%nat) by (simpl; lia).
  assert (H2 : Z.land 0xC2 0xf0 = 0xc0 \/ Z.land 0xC2 0xf0 = 0xd0)
    by (left; reflexivity).
  repeat (split; [assumption|]).
  exact (capture_short_message_ignored Channels SpecAggregator init
           [0xC2; 5] 0xC2 5 H1 H2).
Defined.

(* ------------------------------------------------------------------ *)
(** ** Device list items *)

Section ItemFacts.
Local Open Scope string_scope.

Lemma append_empty_r (s : string) : s ++ "" = s.
Proof. induction s; simpl; congruence. Qed.

Lemma append_assoc_r (a b c : string) : (a ++ b) ++ c = a ++ b ++ c.
Proof. induction a; simpl; congruence. Qed.

Lemma has_char_app (c : ascii) (a b : string) :
  has_char c (a ++ b) = has_char c a || has_char c b.
Proof.
  induction a as [| x a IH]; simpl; [reflexivity|].
  rewrite IH, orb_assoc. reflexivity.
Qed.

(** Decimal numerals hold digits and a sign only. *)
Lemma string_of_uint_plain (c : ascii) (d : Decimal.uint) :
  has_char c "0123456789" = false ->
  has_char c (NilEmpty.string_of_uint d) = false.
Proof.
  intros Hc. cbn [has_char] in Hc.
  repeat (apply orb_false_elim in Hc as [? Hc]).
  induction d; cbn [NilEmpty.string_of_uint has_char];
    [reflexivity | rewrite IHd, orb_false_r; assumption ..].
Qed.

Lemma QString_number_plain (c : ascii) (n : Z) :
  has_char c "0123456789-" = false ->
  has_char c (QString_number n) = false.
Proof.
  intros Hc.
  change "0123456789-" with ("0123456789" ++ "-") in Hc.
  rewrite has_char_app in Hc. apply orb_false_elim in Hc as [Hd Hm].
  cbn [has_char] in Hm. rewrite orb_false_r in Hm.
  assert (Hu : forall d, has_char c (NilZero.string_of_uint d) = false).
  { intros d. unfold NilZero.string_of_uint.
    destruct d; try apply (string_of_uint_plain c _ Hd).
    cbn [has_char] in *. apply orb_false_elim in Hd as [H0 _].
    rewrite H0. reflexivity. }
  unfold QString_number, NilZero.string_of_int.
  destruct (Z.to_int n); [apply Hu|].
  cbn [has_char]. rewrite Hm. apply Hu.
Qed.

(** Cutting at [" / "]. *)
Lemma prefix_sep_before (a : ascii) (A rest : string) :
  has_char "/" A = false ->
  prefix " / " (String a (A ++ String " " rest)) = false.
Proof.
  intros HA. cbn [prefix].
  destruct (ascii_dec " " a); [|reflexivity].
  destruct A as [| a' A']; cbn [append prefix].
  - destruct (ascii_dec "/" " "); [discriminate | reflexivity].
  - destruct (ascii_dec "/" a') as [<- | _]; [|reflexivity].
    simpl in HA. discriminate.
Qed.

Lemma prefix_sep_inside (c : ascii) (B : string) :
  has_char "/" B = false ->
  prefix " / " (String c B) = false.
Proof.
  intros HB. cbn [prefix].
  destruct (ascii_dec " " c); [|reflexivity].
  destruct B as [| b B']; [reflexivity|]. cbn [prefix].
  destruct (ascii_dec "/" b) as [<- | _]; [|reflexivity].
  simpl in HB. discriminate.
Qed.

Lemma split_go_sep_last (cur B : string) :
  has_char "/" B = false ->
  split_go " / " 0 cur B = [cur ++ B].
Proof.
  revert cur. induction B as [| c B IH]; intros cur HB.
  - simpl. now rewrite append_empty_r.
  - cbn [split_go]. rewrite (prefix_sep_inside c B) by
      (simpl in HB; now apply orb_false_elim in HB).
    simpl in HB. apply orb_false_elim in HB as [_ HB].
    rewrite IH by assumption. now rewrite append_assoc_r.
Qed.

Lemma split_go_sep (cur A B : string) :
  has_char "/" A = false -> has_char "/" B = false ->
  split_go " / " 0 cur (A ++ " / " ++ B) = [cur ++ A; B].
Proof.
  revert cur. induction A as [| a A IH]; intros cur HA HB.
  - assert (Hp : prefix " / " (" / " ++ B) = true)
      by (cbn; destruct B; reflexivity).
    cbn [append split_go] in *. rewrite Hp.
    cbn [String.length Nat.sub split_go].
    rewrite split_go_sep_last by assumption.
    now rewrite append_empty_r.
  - cbn [append split_go].
    rewrite (prefix_sep_before a A (String "/" (String " " B))) by
      (simpl in HA; now apply orb_false_elim in HA).
    simpl in HA. apply orb_false_elim in HA as [_ HA].
    rewrite (IH _ HA HB). now rewrite append_assoc_r.
Qed.

(** Cutting at [":"]. *)
Lemma split_go_colon_last (cur B : string) :
  has_char ":" B = false ->
  split_go ":" 0 cur B = [cur ++ B].
Proof.
  revert cur. induction B as [| c B IH]; intros cur HB.
  - simpl. now rewrite append_empty_r.
  - simpl in HB. apply orb_false_elim in HB as [Hc HB].
    cbn [split_go prefix].
    destruct (ascii_dec ":" c) as [<- | _]; [discriminate|].
    rewrite IH by assumption. now rewrite append_assoc_r.
Qed.

Lemma split_go_colon (cur A B : string) :
  has_char ":" A = false -> has_char ":" B = false ->
  split_go ":" 0 cur (A ++ ":" ++ B) = [cur ++ A; B].
Proof.
  revert cur. induction A as [| a A IH]; intros cur HA HB.
  - assert (Hp : prefix ":" (":" ++ B) = true)
      by (cbn; destruct B; reflexivity).
    cbn [append split_go] in *. rewrite Hp.
    cbn [String.length Nat.sub split_go].
    rewrite split_go_colon_last by assumption.
    now rewrite append_empty_r.
  - simpl in HA. apply orb_false_elim in HA as [Ha HA].
    cbn [append split_go prefix].
    destruct (ascii_dec ":" a) as [<- | _]; [discriminate|].
    rewrite (IH _ HA HB). now rewrite append_assoc_r.
Qed.

Lemma section_sep (A B : string) :
  has_char "/" A = false -> has_char "/" B = false ->
  section c_pszItemSep 0 0 (A ++ c_pszItemSep ++ B) = A
  /\ section c_pszItemSep 1 1 (A ++ c_pszItemSep ++ B) = B.
Proof.
  intros HA HB. unfold section, split, c_pszItemSep.
  rewrite (split_go_sep "" A B HA HB). split; reflexivity.
Qed.

Lemma section_colon (A B : string) :
  has_char ":" A = false -> has_char ":" B = false ->
  section ":" 1 1 (A ++ ":" ++ B) = B.
Proof.
  intros HA HB. unfold section, split.
  rewrite (split_go_colon "" A B HA HB). reflexivity.
Qed.

(** The connect loop reads back the two names of an item the listing
    built. *)
Lemma deviceList_item_sections (pClientInfo : snd_seq_client_info_t)
    (pPortInfo : snd_seq_port_info_t) :
  plain_name (ci_name pClientInfo) -> plain_name (pi_name pPortInfo) ->
  section ":" 1 1
    (section c_pszItemSep 0 0 (deviceList_item pClientInfo pPortInfo))
  = ci_name pClientInfo
  /\ section ":" 1 1
       (section c_pszItemSep 1 1 (deviceList_item pClientInfo pPortInfo))
     = pi_name pPortInfo.
Proof.
  intros [Hcc Hcs] [Hpc Hps]. unfold deviceList_item.
  assert (Hn : forall n, has_char "/" (QString_number n ++ ":") = false
                         /\ has_char ":" (QString_number n) = false).
  { intros n. rewrite has_char_app.
    rewrite !QString_number_plain by reflexivity. split; reflexivity. }
  assert (HA : has_char "/"
            ((QString_number (ci_client pClientInfo) ++ ":") ++ ci_name pClientInfo)
          = false)
    by (rewrite has_char_app, Hcs; now rewrite (proj1 (Hn _))).
  assert (HB : has_char "/"
            ((QString_number (pi_port pPortInfo) ++ ":") ++ pi_name pPortInfo)
          = false)
    by (rewrite has_char_app, Hps; now rewrite (proj1 (Hn _))).
  destruct (section_sep _ _ HA HB) as [-> ->].
  rewrite !append_assoc_r. split; apply section_colon; auto; apply Hn.
Qed.

Lemma deviceList_ports_In (bReadable : bool) (pClientInfo : snd_seq_client_info_t)
    (ports : list snd_seq_port_info_t) (sItem : string) :
  In sItem (deviceList_ports bReadable pClientInfo ports) ->
  exists pPortInfo,
    In pPortInfo ports /\ port_listed bReadable pPortInfo = true
    /\ sItem = deviceList_item pClientInfo pPortInfo.
Proof.
  induction ports as [| p rest IH]; simpl; [intros []|].
  destruct (port_listed bReadable p) eqn:Hp.
  - intros [<- | Hin]; [exists p; auto|].
    destruct (IH Hin) as (q & ? & ? & ?). exists q; auto.
  - intros Hin. destruct (IH Hin) as (q & ? & ? & ?). exists q; auto.
Qed.

Lemma deviceList_clients_In (m_iAlsaClient : Z) (bReadable : bool)
    (clients : list snd_seq_client_info_t) (sItem : string) :
  In sItem (deviceList_clients m_iAlsaClient bReadable clients) ->
  exists pClientInfo pPortInfo,
    In pClientInfo clients
    /\ client_listed m_iAlsaClient pClientInfo = true
    /\ In pPortInfo (ci_ports pClientInfo)
    /\ port_listed bReadable pPortInfo = true
    /\ sItem = deviceList_item pClientInfo pPortInfo.
Proof.
  induction clients as [| c rest IH]; simpl; [intros []|].
  destruct (client_listed m_iAlsaClient c) eqn:Hc.
  - intros Hin. apply in_app_or in Hin as [Hin | Hin].
    + apply deviceList_ports_In in Hin as (p & ? & ? & ?).
      exists c, p. auto.
    + destruct (IH Hin) as (c' & p & ? & ? & ? & ? & ?).
      exists c', p. auto.
  - intros Hin. destruct (IH Hin) as (c' & p & ? & ? & ? & ? & ?).
    exists c', p. auto.
Qed.

End ItemFacts.

Lemma item_matches_deviceList_item (pClientInfo : snd_seq_client_info_t)
    (pPortInfo : snd_seq_port_info_t) :
  plain_name (ci_name pClientInfo) -> plain_name (pi_name pPortInfo) ->
  item_matches (ci_name pClientInfo) (pi_name pPortInfo)
    (deviceList_item pClientInfo pPortInfo) = true.
Proof.
  intros Hc Hp. unfold item_matches.
  destruct (deviceList_item_sections pClientInfo pPortInfo Hc Hp) as [-> ->].
  rewrite !String.eqb_refl. reflexivity.
Qed.

(** C6: every item of the ALSA device list is, for a client and a port
    of the sequencer, the client number, a colon, the client name, the
    separator [" / "], the port number, a colon and the port name; when
    the names hold no colon and no slash, the sections the connect loop
    cuts out of the item, with the same separator and in the same
    order, are the client name and the port name, and the item passes
    the name tests of the loop. *)
Theorem deviceList_item_format :
  forall (m_pAlsaSeq : option (list snd_seq_client_info_t))
         (m_iAlsaClient : Z) (bReadable : bool) (sItem : string),
    In sItem (deviceList m_pAlsaSeq m_iAlsaClient bReadable) ->
    exists pClientInfo pPortInfo,
      (exists clients, m_pAlsaSeq = Some clients /\ In pClientInfo clients)
      /\ In pPortInfo (ci_ports pClientInfo)
      /\ sItem = (((QString_number (ci_client pClientInfo) ++ ":")
                    ++ ci_name pClientInfo)
                  ++ " / "
                  ++ (QString_number (pi_port pPortInfo) ++ ":")
                  ++ pi_name pPortInfo)%string
      /\ (plain_name (ci_name pClientInfo) ->
          plain_name (pi_name pPortInfo) ->
          section ":" 1 1 (section c_pszItemSep 0 0 sItem)
          = ci_name pClientInfo
          /\ section ":" 1 1 (section c_pszItemSep 1 1 sItem)
             = pi_name pPortInfo
          /\ item_matches (ci_name pClientInfo) (pi_name pPortInfo) sItem
             = true).
Proof.
  intros m_pAlsaSeq m_iAlsaClient bReadable sItem Hin.
  destruct m_pAlsaSeq as [clients |]; [|destruct Hin].
  apply deviceList_clients_In in Hin as (c & p & Hc & _ & Hp & _ & ->).
  exists c, p. repeat split; eauto.
  - now apply deviceList_item_sections.
  - now apply deviceList_item_sections.
  - now apply item_matches_deviceList_item.
Qed.

Lemma deviceList_item_format_witness :
  In "14:Midi Through / 0:Midi Through Port-0"%string
    (deviceList
       (Some [mk_client_info 14 "Midi Through"
                [mk_port_info 0 "Midi Through Port-0" 0x63]])
       128 true)
  /\ exists pClientInfo pPortInfo,
      (exists clients,
          Some [mk_client_info 14 "Midi Through"
                  [mk_port_info 0 "Midi Through Port-0" 0x63]]
          = Some clients /\ In pClientInfo clients)
      /\ In pPortInfo (ci_ports pClientInfo)
      /\ "14:Midi Through / 0:Midi Through Port-0"%string
         = (((QString_number (ci_client pClientInfo) ++ ":")
               ++ ci_name pClientInfo)
             ++ " / "
             ++ (QString_number (pi_port pPortInfo) ++ ":")
             ++ pi_name pPortInfo)%string
      /\ (plain_name (ci_name pClientInfo) ->
          plain_name (pi_name pPortInfo) ->
          section ":" 1 1
            (section c_pszItemSep 0 0 "14:Midi Through / 0:Midi Through Port-0")
          = ci_name pClientInfo
          /\ section ":" 1 1
               (section c_pszItemSep 1 1 "14:Midi Through / 0:Midi Through Port-0")
             = pi_name pPortInfo
          /\ item_matches (ci_name pClientInfo) (pi_name pPortInfo)
               "14:Midi Through / 0:Midi Through Port-0"
             = true).
Proof.
  assert (Hin : In "14:Midi Through / 0:Midi Through Port-0"%string
            (deviceList
               (Some [mk_client_info 14 "Midi Through"
                        [mk_port_info 0 "Midi Through Port-0" 0x63]])
               128 true))
    by (vm_compute; left; reflexivity).
  split; [exact Hin|].
  exact (deviceList_item_format _ 128 true _ Hin).
Defined.

(* ------------------------------------------------------------------ *)
(** ** Connections *)

Section ConnectFacts.
Variable Seq : Type.
Variable seq_clients : Seq -> list snd_seq_client_info_t.
Variable snd_seq_subscribe_port :
  Seq -> snd_seq_port_subscribe_t -> Z * Seq.

Lemma connect_items_counted bReadable client port pClientInfo pPortInfo items :
  forall co, counted Seq co ->
    counted Seq (connect_items Seq snd_seq_subscribe_port bReadable client port
               pClientInfo pPortInfo items co).
Proof.
  induction items as [| sItem rest IH]; intros co Hco; simpl; [exact Hco|].
  destruct (item_matches _ _ sItem); [|now apply IH].
  destruct (snd_seq_subscribe_port _ _) as [rc seq]. apply IH.
  unfold counted in *. simpl. rewrite filter_app, length_app. simpl.
  rewrite Hco. destruct (rc =? 0)%Z; simpl; lia.
Qed.

Lemma connect_ports_counted bReadable client port list_ pClientInfo ports :
  forall co, counted Seq co ->
    counted Seq (connect_ports Seq snd_seq_subscribe_port bReadable client port
               list_ pClientInfo ports co).
Proof.
  induction ports as [| p rest IH]; intros co Hco; simpl; [exact Hco|].
  apply IH. destruct (port_listed bReadable p); [|exact Hco].
  now apply connect_items_counted.
Qed.

Lemma connect_clients_counted bReadable client port list_ clients :
  forall co, counted Seq co ->
    counted Seq (connect_clients Seq snd_seq_subscribe_port bReadable client port
               list_ clients co).
Proof.
  induction clients as [| c rest IH]; intros co Hco; simpl; [exact Hco|].
  apply IH. destruct (client_listed client c); [|exact Hco].
  now apply connect_ports_counted.
Qed.

(** X18: With the ALSA sequencer the flag is [true] exactly when a requested
    subscription returned 0, and nothing is requested for an empty list
    or without a sequencer. *)
Lemma connectDeviceList_alsa_flag m_pAlsaSeq client port bReadable list_ :
  let '(flag, _, requested) :=
    connectDeviceList_alsa Seq seq_clients snd_seq_subscribe_port
      m_pAlsaSeq client port bReadable list_ in
  (flag = true <-> exists subs, In (subs, 0%Z) requested)
  /\ (list_ = [] \/ m_pAlsaSeq = None -> flag = false /\ requested = []).
Proof.
  unfold connectDeviceList_alsa.
  destruct list_ as [| sItem rest].
  { split; [|auto]. split; [discriminate | intros [? []]]. }
  destruct m_pAlsaSeq as [seq |].
  2:{ split; [|auto]. split; [discriminate | intros [? []]]. }
  set (co := connect_clients _ _ _ _ _ _ _ _).
  assert (Hco : counted Seq co).
  { apply connect_clients_counted. reflexivity. }
  split; [|intros [? | ?]; discriminate].
  unfold counted in Hco. rewrite Z.ltb_lt, Hco.
  split.
  - intros Hpos.
    destruct (filter _ (co_requested co)) as [| [subs rc] l] eqn:Hf;
      [simpl in Hpos; lia|].
    assert (Hin : In (subs, rc) (filter (fun r => (snd r =? 0)%Z) (co_requested co)))
      by (rewrite Hf; left; reflexivity).
    apply filter_In in Hin as [Hin Hrc]. simpl in Hrc.
    apply Z.eqb_eq in Hrc. subst rc. now exists subs.
  - intros [subs Hin].
    assert (Hf : In (subs, 0%Z)
                   (filter (fun r => (snd r =? 0)%Z) (co_requested co)))
      by (apply filter_In; split; [exact Hin | reflexivity]).
    destruct (filter _ (co_requested co)); [destruct Hf | simpl; lia].
Qed.

End ConnectFacts.

(** When [openPort] opens whatever it is asked to, the RtMidi flag is
    [true] exactly when a port carries the name asked for, and then a
    port is open. *)
Lemma connect_rtmidi_ports_opened (portName : string) (m : RtMidi)
    (names : list string) :
  (forall i, rt_openPort m i = PortOpened) ->
  forall i, exists m' n,
    connect_rtmidi_ports portName m i names = Returns (m', n)
    /\ ((0 <? n) = true <-> In portName names)
    /\ ((0 <? n) = true -> isPortOpen m' = true).
Proof.
  intros Hopen. induction names as [| name rest IH]; intros i; simpl.
  - exists m, 0. repeat split; try discriminate. intros [].
  - destruct (String.eqb_spec name portName) as [-> | Hne].
    + rewrite Hopen. eexists _, 1. repeat split; auto.
    + destruct (IH (S i)) as (m' & n & -> & Hn & Ho).
      exists m', n. repeat split; auto.
      * intros Hp. right. now apply Hn.
      * intros [? | Hin]; [contradiction | now apply Hn].
Qed.

(** C5: one RtMidi port named X and the list [X].  When [openPort]
    returns without the port open the flag is [true] although no port
    is open; when [openPort] throws, the exception leaves
    [connectDeviceList]. *)
Theorem connectDeviceList_rtmidi_failed_open :
  (exists m,
      connectDeviceList_rtmidi
        (Some (mk_RtMidi ["X"%string] None (fun _ => PortNotOpened)))
        ["X"%string]
      = Returns (true, Some m)
      /\ isPortOpen m = false)
  /\ connectDeviceList_rtmidi
       (Some (mk_RtMidi ["X"%string] None (fun _ => PortThrows)))
       ["X"%string]
     = Throws.
Proof.
  split; [|reflexivity].
  eexists. split; reflexivity.
Qed.

(* ------------------------------------------------------------------ *)
(** ** Further properties of the map keys *)

Lemma XGParamKey_lt_trans_witness :
  XGParamKey_lt (mkXGParamKey 1 2 3) (mkXGParamKey 1 2 4) = true
  /\ XGParamKey_lt (mkXGParamKey 1 2 4) (mkXGParamKey 1 3 0) = true
  /\ XGParamKey_lt (mkXGParamKey 1 2 3) (mkXGParamKey 1 3 0) = true.
Proof.
  assert (H1 : XGParamKey_lt (mkXGParamKey 1 2 3) (mkXGParamKey 1 2 4) = true)
    by reflexivity.
  assert (H2 : XGParamKey_lt (mkXGParamKey 1 2 4) (mkXGParamKey 1 3 0) = true)
    by reflexivity.
  repeat (split; [assumption|]).
  exact (XGParamKey_lt_trans _ _ _ H1 H2).
Defined.

(** X2: Two (N)RPN keys of one channel are equivalent for the map, neither
    being less than the other, exactly when neither parameter number
    exceeds the channel number; their parameter numbers need not be
    equal. *)
Theorem XGRpnParamKey_equivalent_keys :
  forall a b : XGRpnParamKey,
    XGParam.channel a = XGParam.channel b ->
    (XGRpnParamKey_lt a b = false /\ XGRpnParamKey_lt b a = false)
    <-> (XGParam.param a <= XGParam.channel a
         /\ XGParam.param b <= XGParam.channel a).
Proof.
  intros a b Hc.
  rewrite (XGRpnParamKey_lt_same_channel a b Hc).
  rewrite (XGRpnParamKey_lt_same_channel b a (eq_sym Hc)).
  rewrite !Z.ltb_ge, Hc. tauto.
Qed.

Lemma XGRpnParamKey_equivalent_keys_witness :
  XGParam.channel (mkXGRpnParamKey 15 3) = XGParam.channel (mkXGRpnParamKey 15 7)
  /\ ((XGRpnParamKey_lt (mkXGRpnParamKey 15 3) (mkXGRpnParamKey 15 7) = false
       /\ XGRpnParamKey_lt (mkXGRpnParamKey 15 7) (mkXGRpnParamKey 15 3) = false)
      <-> (XGParam.param (mkXGRpnParamKey 15 3)
           <= XGParam.channel (mkXGRpnParamKey 15 3)
           /\ XGParam.param (mkXGRpnParamKey 15 7)
              <= XGParam.channel (mkXGRpnParamKey 15 3))).
Proof.
  split; [reflexivity|].
  exact (XGRpnParamKey_equivalent_keys
           (mkXGRpnParamKey 15 3) (mkXGRpnParamKey 15 7) eq_refl).
Defined.

(* ------------------------------------------------------------------ *)
(** ** The RtMidi input callback *)

(** A status nibble is never 0xf7, and a data byte has none of the
    status nibbles the callback tests for. *)
Lemma status_not_0xf7 (ch : Z) : (Z.land ch 0xf0 =? 0xf7) = false.
Proof.
  apply Z.eqb_neq. intros Heq.
  pose proof (land_0xf0_0x0f ch) as Hlow. rewrite Heq in Hlow. discriminate.
Qed.

Lemma data_byte_bit7 (d : Z) : 0 <= d < 128 -> Z.land d 0x80 = 0.
Proof.
  intros Hd.
  rewrite <- (Z.mod_small d (2 ^ 7)) by (simpl; lia).
  rewrite <- Z.land_ones by lia.
  rewrite <- Z.land_assoc. simpl. apply Z.land_0_r.
Qed.

Lemma data_byte_status (d : Z) :
  0 <= d < 128 ->
  (Z.land d 0xf0 =? 0xf0) = false
  /\ (Z.land d 0xf0 =? 0xc0) = false
  /\ (Z.land d 0xf0 =? 0xd0) = false
  /\ (Z.land d 0xf0 =? 0xb0) = false.
Proof.
  intros Hd.
  assert (Hbit : Z.land (Z.land d 0xf0) 0x80 = 0).
  { rewrite <- Z.land_assoc. simpl. now apply data_byte_bit7. }
  repeat split; apply Z.eqb_neq; intros Heq; rewrite Heq in Hbit;
    discriminate.
Qed.

(** A SysEx message of three bytes never reaches the capture method:
    the callback's test for the closing byte compares [ch & 0xf0] with
    0xf7, and the loop ends before anything is passed on. *)
Lemma midiIn_callback_short_sysex {Cache : Type} `{Aggregator Cache}
    (d : Z) (x : Rpn Cache) :
  0 <= d < 128 ->
  midiIn_callback [0xF0; d; 0xF7] x = (x, []).
Proof.
  intros Hd. destruct (data_byte_status d Hd) as (Hf & Hc & Hdd & _).
  unfold midiIn_callback. cbn [midiIn_assemble app].
  change (Z.land 0xF0 0xf0 =? 0xf0) with true. cbn iota.
  rewrite Hf, status_not_0xf7, Hc, Hdd. reflexivity.
Qed.

Lemma midiIn_assemble_prefix_upto (n : nat) :
  forall message midi,
    (List.length message <= n)%nat ->
    exists tail,
      midi ++ message = List.concat (midiIn_assemble message midi) ++ tail.
Proof.
  induction n as [| n IH]; intros message midi Hlen.
  - destruct message; [|simpl in Hlen; lia].
    exists midi. simpl. now rewrite app_nil_r.
  - destruct message as [| ch rest]; [exists midi; simpl; now rewrite app_nil_r|].
    simpl in Hlen. cbn [midiIn_assemble].
    destruct (Z.land ch 0xf0 =? 0xf0).
    { destruct (IH rest (midi ++ [ch])) as [tail Ht]; [lia|].
      exists tail. rewrite <- Ht, <- app_assoc. reflexivity. }
    destruct (Z.land ch 0xf0 =? 0xf7).
    { destruct (IH rest []) as [tail Ht]; [lia|].
      exists tail. cbn [List.concat]. rewrite <- !app_assoc, <- Ht. reflexivity. }
    destruct rest as [| b1 rest1]; [eexists; reflexivity|].
    simpl in Hlen.
    destruct ((Z.land ch 0xf0 =? 0xc0) || (Z.land ch 0xf0 =? 0xd0)).
    { destruct (IH rest1 []) as [tail Ht]; [lia|].
      exists tail. cbn [List.concat]. rewrite <- !app_assoc, <- Ht. reflexivity. }
    destruct rest1 as [| b2 rest2]; [eexists; reflexivity|].
    simpl in Hlen.
    destruct (IH rest2 []) as [tail Ht]; [lia|].
    exists tail. cbn [List.concat]. rewrite <- !app_assoc, <- Ht. reflexivity.
Qed.

(** X3: The arrays the callback passes to the capture method, put end to
    end, are a prefix of the message it was given: no byte is invented,
    repeated or moved, and only bytes at the end can be left out. *)
Theorem midiIn_assemble_prefix :
  forall message : list Z,
    exists tail, message = List.concat (midiIn_assemble message []) ++ tail.
Proof.
  intros message.
  destruct (midiIn_assemble_prefix_upto (List.length message) message [])
    as [tail Ht]; [lia|].
  exists tail. exact Ht.
Qed.

Lemma midiIn_assemble_sizes_upto (n : nat) :
  forall message,
    (List.length message <= n)%nat ->
    Forall (fun b => Z.land b 0xf0 <> 0xf0) message ->
    Forall (fun midi =>
              (List.length midi = 2%nat
               /\ (Z.land (at_ midi 0) 0xf0 = 0xc0
                   \/ Z.land (at_ midi 0) 0xf0 = 0xd0))
              \/ (List.length midi = 3%nat
                  /\ Z.land (at_ midi 0) 0xf0 <> 0xc0
                  /\ Z.land (at_ midi 0) 0xf0 <> 0xd0))
      (midiIn_assemble message []).
Proof.
  induction n as [| n IH]; intros message Hlen Hst.
  - destruct message; [constructor | simpl in Hlen; lia].
  - destruct message as [| ch rest]; [constructor|].
    simpl in Hlen. inversion Hst as [| ? ? Hch Hrest]; subst.
    cbn [midiIn_assemble app].
    apply Z.eqb_neq in Hch. rewrite Hch, status_not_0xf7.
    destruct rest as [| b1 rest1]; [constructor|].
    simpl in Hlen. inversion Hrest as [| ? ? _ Hrest1]; subst.
    destruct (Z.eqb_spec (Z.land ch 0xf0) 0xc0) as [Hc | Hc]; cbn [orb].
    { constructor; [left; split; [reflexivity | left; exact Hc]|].
      apply IH; [lia | assumption]. }
    destruct (Z.eqb_spec (Z.land ch 0xf0) 0xd0) as [Hd | Hd].
    { constructor; [left; split; [reflexivity | right; exact Hd]|].
      apply IH; [lia | assumption]. }
    destruct rest1 as [| b2 rest2]; [constructor|].
    simpl in Hlen. inversion Hrest1 as [| ? ? _ Hrest2]; subst.
    constructor; [right; repeat split; assumption|].
    apply IH; [lia | assumption].
Qed.

(** X4: When no byte of a message has the high nibble 0xf, every array the
    callback passes on is a two-byte message with status 0xc0 or 0xd0
    or a three-byte message with another status. *)
Theorem midiIn_assemble_sizes :
  forall message : list Z,
    Forall (fun b => Z.land b 0xf0 <> 0xf0) message ->
    Forall (fun midi =>
              (List.length midi = 2%nat
               /\ (Z.land (at_ midi 0) 0xf0 = 0xc0
                   \/ Z.land (at_ midi 0) 0xf0 = 0xd0))
              \/ (List.length midi = 3%nat
                  /\ Z.land (at_ midi 0) 0xf0 <> 0xc0
                  /\ Z.land (at_ midi 0) 0xf0 <> 0xd0))
      (midiIn_assemble message []).
Proof.
  intros message. apply (midiIn_assemble_sizes_upto (List.length message)).
  lia.
Qed.

Lemma midiIn_assemble_sizes_witness :
  Forall (fun b => Z.land b 0xf0 <> 0xf0) [0xC2; 5; 0x92; 60; 100]
  /\ Forall (fun midi =>
               (List.length midi = 2%nat
                /\ (Z.land (at_ midi 0) 0xf0 = 0xc0
                    \/ Z.land (at_ midi 0) 0xf0 = 0xd0))
               \/ (List.length midi = 3%nat
                   /\ Z.land (at_ midi 0) 0xf0 <> 0xc0
                   /\ Z.land (at_ midi 0) 0xf0 <> 0xd0))
       (midiIn_assemble [0xC2; 5; 0x92; 60; 100] []).
Proof.
  assert (Hst : Forall (fun b => Z.land b 0xf0 <> 0xf0) [0xC2; 5; 0x92; 60; 100])
    by (repeat constructor; simpl; discriminate).
  split; [exact Hst|].
  exact (midiIn_assemble_sizes _ Hst).
Defined.

(** X5: A SysEx message with three data bytes or more does not reach the
    consumers whole: the callback cuts it after the third data byte, and
    the capture method emits these four bytes as a SysEx and flushes the
    aggregator before the rest of the message is looked at. *)
Theorem midiIn_callback_sysex_cut :
  forall (Cache : Type) (A : Aggregator Cache) (x : Rpn Cache)
         (d1 d2 d3 : Z) (rest : list Z),
    0 <= d1 < 128 ->
    midiIn_assemble (0xF0 :: d1 :: d2 :: d3 :: rest) []
    = [0xF0; d1; d2; d3] :: midiIn_assemble rest []
    /\ snd (midiIn_callback (0xF0 :: d1 :: d2 :: d3 :: rest) x)
       = emitReceiveSysex [0xF0; d1; d2; d3]
           :: snd (midiIn_callback rest (flush x)).
Proof.
  intros Cache A x d1 d2 d3 rest Hd.
  destruct (data_byte_status d1 Hd) as (Hf & Hc & Hdd & _).
  assert (Hasm : midiIn_assemble (0xF0 :: d1 :: d2 :: d3 :: rest) []
                 = [0xF0; d1; d2; d3] :: midiIn_assemble rest []).
  { cbn [midiIn_assemble app]. change (Z.land 0xF0 0xf0 =? 0xf0) with true.
    cbn iota. rewrite Hf, status_not_0xf7, Hc, Hdd. reflexivity. }
  split; [exact Hasm|].
  unfold midiIn_callback. rewrite Hasm. cbn [capture_all].
  rewrite capture_sysex by (simpl; try lia; reflexivity).
  destruct (capture_all (midiIn_assemble rest []) (flush x)). reflexivity.
Qed.

Lemma midiIn_callback_sysex_cut_witness :
  0 <= 0x43 < 128
  /\ midiIn_assemble (0xF0 :: 0x43 :: 0x10 :: 0x4C :: [0; 0; 0x7E; 0; 0xF7]) []
     = [0xF0; 0x43; 0x10; 0x4C] :: midiIn_assemble [0; 0; 0x7E; 0; 0xF7] []
  /\ snd (midiIn_callback (0xF0 :: 0x43 :: 0x10 :: 0x4C :: [0; 0; 0x7E; 0; 0xF7])
            init)
     = emitReceiveSysex [0xF0; 0x43; 0x10; 0x4C]
         :: snd (midiIn_callback [0; 0; 0x7E; 0; 0xF7] (flush init)).
Proof.
  assert (Hd : 0 <= 0x43 < 128) by lia.
  split; [exact Hd|].
  exact (midiIn_callback_sysex_cut Channels SpecAggregator init
           0x43 0x10 0x4C [0; 0; 0x7E; 0; 0xF7] Hd).
Defined.

(* ------------------------------------------------------------------ *)
(** ** The RtMidi capture method *)

Lemma nibble_cases (r : Z) :
  0 <= r < 16 ->
  r = 0 \/ r = 1 \/ r = 2 \/ r = 3 \/ r = 4 \/ r = 5 \/ r = 6 \/ r = 7
  \/ r = 8 \/ r = 9 \/ r = 10 \/ r = 11 \/ r = 12 \/ r = 13 \/ r = 14
  \/ r = 15.
Proof. lia. Qed.

Lemma land_0x0f_range (a : Z) : 0 <= Z.land a 0x0f < 16.
Proof.
  change 0x0f with (Z.ones 4). rewrite Z.land_ones by lia.
  apply Z.mod_pos_bound. reflexivity.
Qed.

Lemma land_0x7f_range (a : Z) : 0 <= Z.land a 0x7f < 128.
Proof.
  change 0x7f with (Z.ones 7). rewrite Z.land_ones by lia.
  apply Z.mod_pos_bound. reflexivity.
Qed.

(** The status the two capture paths build for a Control-Change:
    the type code CC with the channel in the low nibble. *)
Lemma cc_status (a : Z) :
  Z.lor CC (Z.land a 0x0f) = 16 + Z.land a 0x0f
  /\ Z.land (Z.lor CC (Z.land a 0x0f)) 0x70 = CC
  /\ Z.land (Z.lor CC (Z.land a 0x0f)) 0x0f = Z.land a 0x0f.
Proof.
  pose proof (land_0x0f_range a) as Hr.
  destruct (nibble_cases _ Hr) as
    [-> | [-> | [-> | [-> | [-> | [-> | [-> | [-> | [-> | [-> | [-> | [->
     | [-> | [-> | [-> | ->]]]]]]]]]]]]]]]; repeat split.
Qed.

Section CaptureMore.
Context {Cache : Type} `{Aggregator Cache}.

Lemma capture_cc (midi : list Z) (x : Rpn Cache) :
  (3 <= List.length midi)%nat ->
  Z.land (at_ midi 0) 0xf0 = 0xb0 ->
  capture midi x = (snd (process (capture_event midi) x), []).
Proof.
  intros Hlen Hst. unfold capture.
  apply Nat.ltb_ge in Hlen. rewrite Hlen, Hst. reflexivity.
Qed.

Lemma capture_dequeue_queue_emits (c : Cache) (q : list Event) :
  capture_dequeue_queue c q = (mkRpn c [], flat_map capture_emit q).
Proof.
  induction q as [| event rest IH]; simpl; [reflexivity|].
  rewrite IH. reflexivity.
Qed.

Lemma capture_other (midi : list Z) (x : Rpn Cache) :
  (3 <= List.length midi)%nat ->
  Z.land (at_ midi 0) 0xf0 <> 0xf0 ->
  Z.land (at_ midi 0) 0xf0 <> 0xb0 ->
  capture midi x = (mkRpn (cache x) [], flat_map capture_emit (queue x)).
Proof.
  intros Hlen Hsx Hcc. unfold capture.
  apply Nat.ltb_ge in Hlen. rewrite Hlen.
  apply Z.eqb_neq in Hsx. apply Z.eqb_neq in Hcc. rewrite Hsx, Hcc.
  apply capture_dequeue_queue_emits.
Qed.

Lemma capture_all_sysex_only (msgs : list (list Z)) :
  Forall (fun midi =>
            (List.length midi < 3)%nat
            \/ Z.land (at_ midi 0) 0xf0 = 0xf0
            \/ Z.land (at_ midi 0) 0xf0 = 0xb0) msgs ->
  forall (x : Rpn Cache) (e : Emit),
    In e (snd (capture_all msgs x)) ->
    exists midi, In midi msgs /\ e = emitReceiveSysex midi.
Proof.
  induction 1 as [| midi rest Hmidi Hrest IH]; intros x e Hin;
    [destruct Hin|].
  cbn [capture_all] in Hin.
  assert (Hcases : (exists x', capture midi x = (x', [])) \/
                   (exists x', capture midi x = (x', [emitReceiveSysex midi]))).
  { destruct (Nat.lt_ge_cases (List.length midi) 3) as [Hs | Hl].
    - left. eexists. now apply capture_short.
    - destruct Hmidi as [Hs | [Hf | Hb]]; [lia | right | left].
      + eexists. now apply capture_sysex.
      + eexists. now apply capture_cc. }
  destruct Hcases as [[x' Hc] | [x' Hc]]; rewrite Hc in Hin;
    destruct (capture_all rest x') as [x'' outs] eqn:Hall;
    cbn [snd app] in Hin.
  - assert (Hin' : In e (snd (capture_all rest x'))) by now rewrite Hall.
    destruct (IH _ _ Hin') as (m & Hm & He). exists m. split; [now right | exact He].
  - destruct Hin as [<- | Hin]; [exists midi; split; [now left | reflexivity]|].
    assert (Hin' : In e (snd (capture_all rest x'))) by now rewrite Hall.
    destruct (IH _ _ Hin') as (m & Hm & He). exists m. split; [now right | exact He].
Qed.

End CaptureMore.

(** X6: A Control-Change message of the RtMidi path is handed to the
    aggregator as an event of type CC whose status is 16 plus the
    channel nibble and whose parameter and value are 7-bit numbers,
    whatever the three bytes are; nothing is emitted, also when the
    message completes an RPN or NRPN. *)
Theorem capture_control_change :
  forall (Cache : Type) (A : Aggregator Cache) (x : Rpn Cache)
         (midi : list Z),
    (3 <= List.length midi)%nat ->
    Z.land (at_ midi 0) 0xf0 = 0xb0 ->
    capture midi x = (snd (process (capture_event midi) x), [])
    /\ 16 <= status (capture_event midi) < 32
    /\ Z.land (status (capture_event midi)) 0x70 = CC
    /\ Z.land (status (capture_event midi)) 0x0f = Z.land (at_ midi 0) 0x0f
    /\ 0 <= param (capture_event midi) < 128
    /\ 0 <= value (capture_event midi) < 128.
Proof.
  intros Cache A x midi Hlen Hst.
  destruct (cc_status (at_ midi 0)) as (Hs & Ht & Hc).
  pose proof (land_0x0f_range (at_ midi 0)).
  repeat split; try apply land_0x7f_range; try assumption.
  - now apply capture_cc.
  - cbn [capture_event status]. lia.
  - cbn [capture_event status]. lia.
Qed.

Lemma capture_control_change_witness :
  (3 <= List.length [0xB2; 99; 2])%nat
  /\ Z.land (at_ [0xB2; 99; 2] 0) 0xf0 = 0xb0
  /\ capture [0xB2; 99; 2] init
     = (snd (process (capture_event [0xB2; 99; 2]) init), [])
  /\ 16 <= status (capture_event [0xB2; 99; 2]) < 32
  /\ Z.land (status (capture_event [0xB2; 99; 2])) 0x70 = CC
  /\ Z.land (status (capture_event [0xB2; 99; 2])) 0x0f
     = Z.land (at_ [0xB2; 99; 2] 0) 0x0f
  /\ 0 <= param (capture_event [0xB2; 99; 2]) < 128
  /\ 0 <= value (capture_event [0xB2; 99; 2]) < 128.
Proof.
  assert (H1 : (3 <= List.length [0xB2; 99; 2])%nat) by (simpl; lia).
  assert (H2 : Z.land (at_ [0xB2; 99; 2] 0) 0xf0 = 0xb0) by reflexivity.
  repeat (split; [assumption|]).
  exact (capture_control_change Channels SpecAggregator init [0xB2; 99; 2] H1 H2).
Defined.

(** X7: A message of three bytes or more that is neither SysEx nor
    Control-Change delivers every queued event, in the order of the
    queue, and leaves the queue empty and the per-channel state as it
    was; the message itself is not looked at further. *)
Theorem capture_other_delivers_queue :
  forall (Cache : Type) (A : Aggregator Cache) (x : Rpn Cache)
         (midi : list Z),
    (3 <= List.length midi)%nat ->
    Z.land (at_ midi 0) 0xf0 <> 0xf0 ->
    Z.land (at_ midi 0) 0xf0 <> 0xb0 ->
    capture midi x = (mkRpn (cache x) [], flat_map capture_emit (queue x)).
Proof.
  intros Cache A x midi. apply capture_other.
Qed.

Lemma capture_other_delivers_queue_witness :
  (3 <= List.length [0x92; 60; 100])%nat
  /\ Z.land (at_ [0x92; 60; 100] 0) 0xf0 <> 0xf0
  /\ Z.land (at_ [0x92; 60; 100] 0) 0xf0 <> 0xb0
  /\ capture [0x92; 60; 100]
       (mkRpn init_channels [mkEvent 0 0 0x21 0 2; mkEvent 0 0 0x32 264 515])
     = (mkRpn init_channels [],
        flat_map capture_emit [mkEvent 0 0 0x21 0 2; mkEvent 0 0 0x32 264 515]).
Proof.
  assert (H1 : (3 <= List.length [0x92; 60; 100])%nat) by (simpl; lia).
  assert (H2 : Z.land (at_ [0x92; 60; 100] 0) 0xf0 <> 0xf0)
    by (simpl; discriminate).
  assert (H3 : Z.land (at_ [0x92; 60; 100] 0) 0xf0 <> 0xb0)
    by (simpl; discriminate).
  repeat (split; [assumption|]).
  exact (capture_other_delivers_queue Channels SpecAggregator
           (mkRpn init_channels [mkEvent 0 0 0x21 0 2; mkEvent 0 0 0x32 264 515])
           [0x92; 60; 100] H1 H2 H3).
Defined.

(** X8: While every array handed to the RtMidi capture method is a
    Control-Change, a SysEx array or shorter than three bytes, the
    capture method emits no RPN or NRPN notification at all: everything
    it emits is one of the SysEx arrays, as it was handed over. *)
Theorem capture_all_emits_sysex_only :
  forall (Cache : Type) (A : Aggregator Cache) (msgs : list (list Z))
         (x : Rpn Cache) (e : Emit),
    Forall (fun midi =>
              (List.length midi < 3)%nat
              \/ Z.land (at_ midi 0) 0xf0 = 0xf0
              \/ Z.land (at_ midi 0) 0xf0 = 0xb0) msgs ->
    In e (snd (capture_all msgs x)) ->
    exists midi, In midi msgs /\ e = emitReceiveSysex midi.
Proof.
  intros Cache A msgs x e Hmsgs. now apply capture_all_sysex_only.
Qed.

Lemma capture_all_emits_sysex_only_witness :
  Forall (fun midi =>
            (List.length midi < 3)%nat
            \/ Z.land (at_ midi 0) 0xf0 = 0xf0
            \/ Z.land (at_ midi 0) 0xf0 = 0xb0)
    [[0xB2; 99; 2]; [0xB2; 98; 8]; [0xB2; 6; 4]; [0xB2; 38; 3];
     [0xF0; 0x43; 0xF7]]
  /\ In (emitReceiveSysex [0xF0; 0x43; 0xF7])
       (snd (capture_all
               [[0xB2; 99; 2]; [0xB2; 98; 8]; [0xB2; 6; 4]; [0xB2; 38; 3];
                [0xF0; 0x43; 0xF7]] init))
  /\ exists midi,
      In midi [[0xB2; 99; 2]; [0xB2; 98; 8]; [0xB2; 6; 4]; [0xB2; 38; 3];
               [0xF0; 0x43; 0xF7]]
      /\ emitReceiveSysex [0xF0; 0x43; 0xF7] = emitReceiveSysex midi.
Proof.
  assert (H1 : Forall (fun midi =>
            (List.length midi < 3)%nat
            \/ Z.land (at_ midi 0) 0xf0 = 0xf0
            \/ Z.land (at_ midi 0) 0xf0 = 0xb0)
    [[0xB2; 99; 2]; [0xB2; 98; 8]; [0xB2; 6; 4]; [0xB2; 38; 3];
     [0xF0; 0x43; 0xF7]]).
  { repeat constructor; first [right; right; reflexivity | right; left; reflexivity]. }
  assert (H2 : In (emitReceiveSysex [0xF0; 0x43; 0xF7])
       (snd (capture_all
               [[0xB2; 99; 2]; [0xB2; 98; 8]; [0xB2; 6; 4]; [0xB2; 38; 3];
                [0xF0; 0x43; 0xF7]] init)))
    by (vm_compute; left; reflexivity).
  repeat (split; [assumption|]).
  exact (capture_all_emits_sysex_only Channels SpecAggregator _ init _ H1 H2).
Defined.

(* ------------------------------------------------------------------ *)
(** ** The ALSA input thread *)

Lemma capture_alsa_controller (m_iAlsaPort : Z) (pEv : snd_seq_event_t) :
  is_controller (ev_type pEv) = true -> capture_alsa m_iAlsaPort pEv = [].
Proof.
  intros Hty. unfold capture_alsa, capture_switch.
  destruct (ev_type pEv); try discriminate.
  destruct (negb _); reflexivity.
Qed.

Section ThreadFacts.
Context {Cache : Type} `{Aggregator Cache}.

Lemma run_input_flat_map (m_iAlsaPort : Z) (events : list snd_seq_event_t) :
  forall xrpn : Rpn Cache,
    snd (run_input m_iAlsaPort events xrpn)
    = flat_map (capture_alsa m_iAlsaPort) events.
Proof.
  induction events as [| pEv rest IH]; intros xrpn; [reflexivity|].
  cbn [run_input flat_map].
  destruct (InputRpn_process pEv xrpn) as [consumed x] eqn:Hp.
  specialize (IH x).
  destruct (run_input m_iAlsaPort rest x) as [x' outs]. cbn [snd] in *.
  rewrite IH. f_equal.
  destruct (is_controller (ev_type pEv)) eqn:Hty.
  - rewrite capture_alsa_controller by assumption. now destruct consumed.
  - rewrite InputRpn_process_not_controller in Hp by assumption.
    inversion Hp; subst. reflexivity.
Qed.

Lemma run_pending_queue_origin (m_iAlsaPort : Z) (c : Cache) (q : list Event)
    (e : Emit) :
  In e (snd (run_pending_queue m_iAlsaPort c q)) ->
  exists event,
    In event q
    /\ port event = m_iAlsaPort
    /\ ((Z.land (status event) 0x70 = RPN
         /\ e = emitReceiveRpn (Z.land (status event) 0x0f)
                  (param event) (value event))
        \/ (Z.land (status event) 0x70 = NRPN
            /\ e = emitReceiveNrpn (Z.land (status event) 0x0f)
                     (param event) (value event))).
Proof.
  induction q as [| event rest IH]; cbn [run_pending_queue]; [intros []|].
  destruct (run_pending_queue m_iAlsaPort c rest) as [x outs].
  cbn [snd] in *. intros Hin. apply in_app_or in Hin as [Hin | Hin].
  - exists event. split; [now left|].
    unfold InputRpn_event in Hin.
    destruct (Z.eqb_spec (Z.land (status event) 0x70) CC) as [Hc | Hc];
      [unfold capture_alsa in Hin; cbn in Hin;
       destruct (negb _); destruct Hin|].
    destruct (Z.eqb_spec (Z.land (status event) 0x70) RPN) as [Hr | Hr].
    { unfold capture_alsa in Hin. cbn in Hin.
      destruct (Z.eqb_spec (port event) m_iAlsaPort) as [Hp | Hp];
        cbn in Hin; [|destruct Hin].
      destruct Hin as [<- | []]. auto. }
    destruct (Z.eqb_spec (Z.land (status event) 0x70) NRPN) as [Hn | Hn].
    { unfold capture_alsa in Hin. cbn in Hin.
      destruct (Z.eqb_spec (port event) m_iAlsaPort) as [Hp | Hp];
        cbn in Hin; [|destruct Hin].
      destruct Hin as [<- | []]. auto. }
    destruct (Z.land (status event) 0x70 =? CC14);
      [unfold capture_alsa in Hin; cbn in Hin;
       destruct (negb _); destruct Hin | destruct Hin].
  - destruct (IH Hin) as (ev & Hev & Hrest). exists ev. split; [now right | exact Hrest].
Qed.

Lemma run_cycle_state (m_iAlsaPort : Z) (poll : Poll) (xrpn : Rpn Cache) :
  queue (fst (run_cycle m_iAlsaPort poll xrpn)) = [].
Proof.
  unfold run_cycle.
  destruct (match poll 200 with
            | PollTimeout => _ | PollEvents _ _ => _ | PollError => _
            end) as [x out].
  unfold run_pending.
  pose proof (run_pending_queue_state m_iAlsaPort (cache x) (queue x)) as Hq.
  destruct (run_pending_queue m_iAlsaPort (cache x) (queue x)) as [x' outs].
  cbn [fst] in *. now subst x'.
Qed.

Lemma run_state (m_iAlsaPort : Z) (polls : list Poll) :
  polls <> [] ->
  forall xrpn : Rpn Cache, queue (fst (run m_iAlsaPort polls xrpn)) = [].
Proof.
  induction polls as [| poll rest IH]; intros Hne xrpn; [contradiction|].
  cbn [run].
  pose proof (run_cycle_state m_iAlsaPort poll xrpn) as Hc.
  destruct (run_cycle m_iAlsaPort poll xrpn) as [x out]. cbn [fst] in Hc.
  destruct rest as [| poll' rest'].
  - destruct (poll 200); exact Hc.
  - assert (Hr : queue (fst (run m_iAlsaPort (poll' :: rest') x)) = [])
      by (apply IH; discriminate).
    destruct (run m_iAlsaPort (poll' :: rest') x) as [x' outs].
    destruct (poll 200); assumption.
Qed.

Lemma run_stops (m_iAlsaPort : Z) (pre : list Poll) (err : Poll)
    (post : list Poll) :
  err 200 = PollError ->
  forall xrpn : Rpn Cache,
    run m_iAlsaPort (pre ++ err :: post) xrpn
    = run m_iAlsaPort (pre ++ [err]) xrpn.
Proof.
  intros Herr. induction pre as [| poll rest IH]; intros xrpn.
  - cbn -[run_cycle]. destruct (run_cycle m_iAlsaPort err xrpn) as [x out].
    rewrite Herr. reflexivity.
  - cbn -[run_cycle]. destruct (run_cycle m_iAlsaPort poll xrpn) as [x out].
    cbn -[run_cycle] in IH. rewrite IH. reflexivity.
Qed.

End ThreadFacts.

(** X9: What the input thread emits while it reads the events of a turn
    does not depend on the aggregator: it is what the capture method
    emits for each event, in order.  A Control-Change contributes
    nothing, whether the aggregator consumed it or not. *)
Theorem run_input_emits :
  forall (Cache : Type) (A : Aggregator Cache) (m_iAlsaPort : Z)
         (events : list snd_seq_event_t) (xrpn : Rpn Cache),
    snd (run_input m_iAlsaPort events xrpn)
    = flat_map (capture_alsa m_iAlsaPort) events.
Proof.
  intros Cache A m_iAlsaPort events xrpn. apply run_input_flat_map.
Qed.

(** X10: Every notification of the delivery loop of the input thread comes
    from a queued RPN or NRPN event addressed to the port of the device,
    and carries the low nibble of its status as the channel, a number
    from 0 to 15, with the parameter and the value of the event. *)
Theorem run_pending_emits :
  forall (Cache : Type) (A : Aggregator Cache) (m_iAlsaPort : Z)
         (xrpn : Rpn Cache) (e : Emit),
    In e (snd (run_pending m_iAlsaPort xrpn)) ->
    exists event,
      In event (queue xrpn)
      /\ port event = m_iAlsaPort
      /\ 0 <= Z.land (status event) 0x0f < 16
      /\ ((Z.land (status event) 0x70 = RPN
           /\ e = emitReceiveRpn (Z.land (status event) 0x0f)
                    (param event) (value event))
          \/ (Z.land (status event) 0x70 = NRPN
              /\ e = emitReceiveNrpn (Z.land (status event) 0x0f)
                       (param event) (value event))).
Proof.
  intros Cache A m_iAlsaPort xrpn e Hin.
  destruct (run_pending_queue_origin m_iAlsaPort _ _ e Hin)
    as (event & Hev & Hport & Hkind).
  exists event. repeat split; auto; apply land_0x0f_range.
Qed.

Lemma run_pending_emits_witness :
  In (emitReceiveNrpn 2 264 515)
    (snd (run_pending 0 (mkRpn init_channels [mkEvent 0 0 0x32 264 515])))
  /\ exists event,
      In event (queue (mkRpn init_channels [mkEvent 0 0 0x32 264 515]))
      /\ port event = 0
      /\ 0 <= Z.land (status event) 0x0f < 16
      /\ ((Z.land (status event) 0x70 = RPN
           /\ emitReceiveNrpn 2 264 515
              = emitReceiveRpn (Z.land (status event) 0x0f)
                  (param event) (value event))
          \/ (Z.land (status event) 0x70 = NRPN
              /\ emitReceiveNrpn 2 264 515
                 = emitReceiveNrpn (Z.land (status event) 0x0f)
                     (param event) (value event))).
Proof.
  assert (Hin : In (emitReceiveNrpn 2 264 515)
            (snd (run_pending 0 (mkRpn init_channels [mkEvent 0 0 0x32 264 515]))))
    by (vm_compute; left; reflexivity).
  split; [exact Hin|].
  exact (run_pending_emits Channels SpecAggregator 0 _ _ Hin).
Defined.

(** X11: Whatever the poll returned, nothing is pending when a turn of the
    input thread ends, and so when the thread ends after at least one
    turn: every completed event was taken off the queue. *)
Theorem run_leaves_nothing_pending :
  forall (Cache : Type) (A : Aggregator Cache) (m_iAlsaPort : Z)
         (poll : Poll) (polls : list Poll) (xrpn : Rpn Cache),
    isPending (fst (run_cycle m_iAlsaPort poll xrpn)) = false
    /\ isPending (fst (run m_iAlsaPort (poll :: polls) xrpn)) = false.
Proof.
  intros Cache A m_iAlsaPort poll polls xrpn. unfold isPending.
  rewrite run_cycle_state, run_state by discriminate. split; reflexivity.
Qed.

(** X12: The input thread ends with the turn in which the poll fails: the
    polls after it change neither the aggregator nor what is emitted. *)
Theorem run_stops_at_poll_error :
  forall (Cache : Type) (A : Aggregator Cache) (m_iAlsaPort : Z)
         (pre : list Poll) (err : Poll) (post : list Poll)
         (xrpn : Rpn Cache),
    err 200 = PollError ->
    run m_iAlsaPort (pre ++ err :: post) xrpn
    = run m_iAlsaPort (pre ++ [err]) xrpn.
Proof.
  intros Cache A m_iAlsaPort pre err post xrpn Herr. now apply run_stops.
Qed.

Lemma run_stops_at_poll_error_witness :
  (fun _ : Z => PollError) 200 = PollError
  /\ run 0
       ([fun _ => PollTimeout] ++ (fun _ => PollError)
          :: [fun _ =>
                PollEvents
                  (mk_snd_seq_event SND_SEQ_EVENT_SYSEX 0 0 0 0 0 [0xF0; 0xF7])
                  []])
       init
     = run 0 ([fun _ => PollTimeout] ++ [fun _ => PollError]) init.
Proof.
  split; [reflexivity|].
  exact (run_stops_at_poll_error Channels SpecAggregator 0
           [fun _ => PollTimeout] (fun _ => PollError)
           [fun _ =>
              PollEvents
                (mk_snd_seq_event SND_SEQ_EVENT_SYSEX 0 0 0 0 0 [0xF0; 0xF7])
                []]
           init eq_refl).
Defined.

(** X13: For a Control-Change of the sequencer whose channel is a
    number from 0 to 15, whose parameter and value are numbers from 0 to
    127 and whose destination port is a number from 0 to 255, converting
    it to the event of the aggregator and back gives a Control-Change
    event with the same channel, parameter, value, destination port and
    tick; and the event converted to is the one [InputRpn::process]
    hands to the aggregator. *)
Theorem InputRpn_encode_decode :
  forall (Cache : Type) (A : Aggregator Cache) (xrpn : Rpn Cache)
         (ev : snd_seq_event_t),
    ev_type ev = SND_SEQ_EVENT_CONTROLLER ->
    0 <= ev_control_channel ev < 16 ->
    0 <= ev_control_param ev < 128 ->
    0 <= ev_control_value ev < 128 ->
    0 <= ev_dest_port ev < 256 ->
    0 <= ev_time_tick ev < 2 ^ 32 ->
    (exists ev',
        InputRpn_event (InputRpn_encode ev) = Some ev'
        /\ ev_type ev' = SND_SEQ_EVENT_CONTROLLER
        /\ ev_control_channel ev' = ev_control_channel ev
        /\ ev_control_param ev' = ev_control_param ev
        /\ ev_control_value ev' = ev_control_value ev
        /\ ev_dest_port ev' = ev_dest_port ev
        /\ ev_time_tick ev' = ev_time_tick ev)
    /\ InputRpn_process ev xrpn = process (InputRpn_encode ev) xrpn.
Proof.
  intros Cache A xrpn ev Hty Hch _ _ _ _. split.
  - unfold InputRpn_event, InputRpn_encode. cbn [status time port param value].
    destruct (cc_status (ev_control_channel ev)) as (_ & -> & ->).
    change (CC =? CC) with true. cbn iota.
    eexists. split; [reflexivity|]. cbn. repeat split.
    change 0x0f with (Z.ones 4). rewrite Z.land_ones by lia.
    apply Z.mod_small. lia.
  - unfold InputRpn_process. rewrite Hty. reflexivity.
Qed.

Lemma InputRpn_encode_decode_witness :
  ev_type (mk_snd_seq_event SND_SEQ_EVENT_CONTROLLER 7 0 2 99 2 [])
  = SND_SEQ_EVENT_CONTROLLER
  /\ 0 <= ev_control_channel
            (mk_snd_seq_event SND_SEQ_EVENT_CONTROLLER 7 0 2 99 2 []) < 16
  /\ 0 <= ev_control_param
            (mk_snd_seq_event SND_SEQ_EVENT_CONTROLLER 7 0 2 99 2 []) < 128
  /\ 0 <= ev_control_value
            (mk_snd_seq_event SND_SEQ_EVENT_CONTROLLER 7 0 2 99 2 []) < 128
  /\ 0 <= ev_dest_port
            (mk_snd_seq_event SND_SEQ_EVENT_CONTROLLER 7 0 2 99 2 []) < 256
  /\ 0 <= ev_time_tick
            (mk_snd_seq_event SND_SEQ_EVENT_CONTROLLER 7 0 2 99 2 []) < 2 ^ 32
  /\ (exists ev',
         InputRpn_event
           (InputRpn_encode
              (mk_snd_seq_event SND_SEQ_EVENT_CONTROLLER 7 0 2 99 2 []))
         = Some ev'
         /\ ev_type ev' = SND_SEQ_EVENT_CONTROLLER
         /\ ev_control_channel ev' = 2
         /\ ev_control_param ev' = 99
         /\ ev_control_value ev' = 2
         /\ ev_dest_port ev' = 0
         /\ ev_time_tick ev' = 7)
  /\ InputRpn_process
       (mk_snd_seq_event SND_SEQ_EVENT_CONTROLLER 7 0 2 99 2 []) init
     = process
         (InputRpn_encode
            (mk_snd_seq_event SND_SEQ_EVENT_CONTROLLER 7 0 2 99 2 []))
         init.
Proof.
  assert (H1 : ev_type (mk_snd_seq_event SND_SEQ_EVENT_CONTROLLER 7 0 2 99 2 [])
               = SND_SEQ_EVENT_CONTROLLER) by reflexivity.
  assert (H2 : 0 <= ev_control_channel
                 (mk_snd_seq_event SND_SEQ_EVENT_CONTROLLER 7 0 2 99 2 []) < 16)
    by (simpl; lia).
  assert (H3 : 0 <= ev_control_param
                 (mk_snd_seq_event SND_SEQ_EVENT_CONTROLLER 7 0 2 99 2 []) < 128)
    by (simpl; lia).
  assert (H4 : 0 <= ev_control_value
                 (mk_snd_seq_event SND_SEQ_EVENT_CONTROLLER 7 0 2 99 2 []) < 128)
    by (simpl; lia).
  assert (H5 : 0 <= ev_dest_port
                 (mk_snd_seq_event SND_SEQ_EVENT_CONTROLLER 7 0 2 99 2 []) < 256)
    by (simpl; lia).
  assert (H6 : 0 <= ev_time_tick
                 (mk_snd_seq_event SND_SEQ_EVENT_CONTROLLER 7 0 2 99 2 []) < 2 ^ 32)
    by (simpl; lia).
  repeat (split; [assumption|]).
  exact (InputRpn_encode_decode Channels SpecAggregator init _
           H1 H2 H3 H4 H5 H6).
Defined.

(* ------------------------------------------------------------------ *)
(** ** Listing the ports *)

Lemma deviceList_ports_complete (bReadable : bool)
    (pClientInfo : snd_seq_client_info_t) (ports : list snd_seq_port_info_t)
    (pPortInfo : snd_seq_port_info_t) :
  In pPortInfo ports -> port_listed bReadable pPortInfo = true ->
  In (deviceList_item pClientInfo pPortInfo)
     (deviceList_ports bReadable pClientInfo ports).
Proof.
  intros Hin Hp. induction ports as [| q rest IH]; [destruct Hin|].
  cbn [deviceList_ports]. destruct Hin as [-> | Hin].
  - rewrite Hp. now left.
  - destruct (port_listed bReadable q); [right|]; now apply IH.
Qed.

Lemma deviceList_clients_complete (m_iAlsaClient : Z) (bReadable : bool)
    (clients : list snd_seq_client_info_t)
    (pClientInfo : snd_seq_client_info_t) (pPortInfo : snd_seq_port_info_t) :
  In pClientInfo clients ->
  client_listed m_iAlsaClient pClientInfo = true ->
  In pPortInfo (ci_ports pClientInfo) ->
  port_listed bReadable pPortInfo = true ->
  In (deviceList_item pClientInfo pPortInfo)
     (deviceList_clients m_iAlsaClient bReadable clients).
Proof.
  intros Hin Hc Hpin Hp. induction clients as [| c rest IH]; [destruct Hin|].
  cbn [deviceList_clients]. destruct Hin as [-> | Hin].
  - rewrite Hc. apply in_or_app. left.
    now apply deviceList_ports_complete.
  - destruct (client_listed m_iAlsaClient c);
      [apply in_or_app; right|]; now apply IH.
Qed.

Lemma client_listed_spec (m_iAlsaClient : Z) (pClientInfo : snd_seq_client_info_t) :
  client_listed m_iAlsaClient pClientInfo = true
  <-> 0 < ci_client pClientInfo /\ ci_client pClientInfo <> m_iAlsaClient.
Proof.
  unfold client_listed.
  rewrite andb_true_iff, negb_true_iff, Z.ltb_lt, Z.eqb_neq. reflexivity.
Qed.

(** X14: The device list holds exactly one kind of item: the item of a port
    that passes the capability test, of a client with a positive number
    other than the device's own.  The device never lists its own ports
    or those of client 0. *)
Theorem deviceList_lists_exactly :
  forall (clients : list snd_seq_client_info_t) (m_iAlsaClient : Z)
         (bReadable : bool) (sItem : string),
    In sItem (deviceList (Some clients) m_iAlsaClient bReadable)
    <-> exists pClientInfo pPortInfo,
        In pClientInfo clients
        /\ 0 < ci_client pClientInfo
        /\ ci_client pClientInfo <> m_iAlsaClient
        /\ In pPortInfo (ci_ports pClientInfo)
        /\ port_listed bReadable pPortInfo = true
        /\ sItem = deviceList_item pClientInfo pPortInfo.
Proof.
  intros clients m_iAlsaClient bReadable sItem. cbn [deviceList]. split.
  - intros Hin.
    apply deviceList_clients_In in Hin as (c & p & Hc & Hl & Hp & Hpl & ->).
    apply client_listed_spec in Hl as [Hpos Hne].
    exists c, p. auto 10.
  - intros (c & p & Hc & Hpos & Hne & Hp & Hpl & ->).
    apply deviceList_clients_complete; auto.
    apply client_listed_spec. auto.
Qed.

(** Testing a capability word against a mask of two bits, or of one. *)
Lemma land_two_bits (cap i j : Z) :
  0 <= i -> 0 <= j ->
  Z.land cap (Z.lor (2 ^ i) (2 ^ j)) = Z.lor (2 ^ i) (2 ^ j)
  <-> Z.testbit cap i = true /\ Z.testbit cap j = true.
Proof.
  intros Hi Hj.
  assert (Hm : forall n, Z.testbit (Z.lor (2 ^ i) (2 ^ j)) n
                         = (i =? n) || (j =? n)).
  { intros n. rewrite Z.lor_spec, !Z.pow2_bits_eqb by assumption. reflexivity. }
  split.
  - intros Heq. split.
    + apply (f_equal (fun z => Z.testbit z i)) in Heq.
      rewrite Z.land_spec, Hm, Z.eqb_refl in Heq. cbn [orb] in Heq.
      now rewrite andb_true_r in Heq.
    + apply (f_equal (fun z => Z.testbit z j)) in Heq.
      rewrite Z.land_spec, Hm, Z.eqb_refl, orb_true_r in Heq.
      now rewrite andb_true_r in Heq.
  - intros [Hbi Hbj]. apply Z.bits_inj'. intros n _.
    rewrite Z.land_spec, Hm.
    destruct (Z.eqb_spec i n) as [<- | _]; [now rewrite Hbi|].
    destruct (Z.eqb_spec j n) as [<- | _]; [now rewrite Hbj|].
    apply andb_false_r.
Qed.

Lemma land_one_bit (cap k : Z) :
  0 <= k ->
  Z.land cap (2 ^ k) = 0 <-> Z.testbit cap k = false.
Proof.
  intros Hk. split.
  - intros Heq. apply (f_equal (fun z => Z.testbit z k)) in Heq.
    rewrite Z.land_spec, Z.pow2_bits_eqb, Z.eqb_refl, Z.bits_0 in Heq
      by assumption.
    now rewrite andb_true_r in Heq.
  - intros Hb. apply Z.bits_inj'. intros n _.
    rewrite Z.land_spec, Z.pow2_bits_eqb, Z.bits_0 by assumption.
    destruct (Z.eqb_spec k n) as [<- | _]; [now rewrite Hb | apply andb_false_r].
Qed.

(** X15: The capability test lets a port through exactly when, for inputs,
    bits 0 (READ) and 5 (SUBS_READ) of its capability word are set, for
    outputs bits 1 (WRITE) and 6 (SUBS_WRITE), and in both cases bit 7
    (NO_EXPORT) is clear; the other bits do not matter. *)
Theorem port_listed_bits :
  forall (bReadable : bool) (pPortInfo : snd_seq_port_info_t),
    port_listed bReadable pPortInfo = true
    <-> Z.testbit (pi_capability pPortInfo) (if bReadable then 0 else 1) = true
        /\ Z.testbit (pi_capability pPortInfo) (if bReadable then 5 else 6) = true
        /\ Z.testbit (pi_capability pPortInfo) 7 = false.
Proof.
  intros bReadable p. unfold port_listed.
  rewrite andb_true_iff, !Z.eqb_eq.
  change SND_SEQ_PORT_CAP_NO_EXPORT with (2 ^ 7).
  rewrite (land_one_bit _ 7) by lia.
  destruct bReadable.
  - change (uiPortFlags true) with (Z.lor (2 ^ 0) (2 ^ 5)).
    rewrite (land_two_bits _ 0 5) by lia. tauto.
  - change (uiPortFlags false) with (Z.lor (2 ^ 1) (2 ^ 6)).
    rewrite (land_two_bits _ 1 6) by lia. tauto.
Qed.

(** ** Matching ports by name *)

Section MatchFacts.
Local Open Scope string_scope.

Lemma section_missing (sItem : string) :
  has_char "/" sItem = false -> section c_pszItemSep 1 1 sItem = "".
Proof.
  intros Hs. unfold section, split, c_pszItemSep.
  rewrite split_go_sep_last by assumption. reflexivity.
Qed.

(** X16: The name tests of the connect loop accept an item built for a port
    with plain names exactly for the client name and the port name of
    that port: the numbers in the item play no part. *)
Theorem item_matches_names :
  forall (pClientInfo : snd_seq_client_info_t)
         (pPortInfo : snd_seq_port_info_t) (sClientName sPortName : string),
    plain_name (ci_name pClientInfo) ->
    plain_name (pi_name pPortInfo) ->
    item_matches sClientName sPortName (deviceList_item pClientInfo pPortInfo)
    = true
    <-> sClientName = ci_name pClientInfo /\ sPortName = pi_name pPortInfo.
Proof.
  intros c p cn pn Hc Hp. unfold item_matches.
  destruct (deviceList_item_sections c p Hc Hp) as [-> ->].
  destruct (String.eqb_spec cn (ci_name c)) as [-> | Hcn]; cbn [negb].
  - destruct (String.eqb_spec pn (pi_name p)) as [-> | Hpn]; cbn [negb].
    + tauto.
    + split; [discriminate | tauto].
  - split; [discriminate | tauto].
Qed.

Lemma item_matches_names_witness :
  plain_name (ci_name (mk_client_info 14 "Midi Through" []))
  /\ plain_name (pi_name (mk_port_info 0 "Midi Through Port-0" 0x63))
  /\ (item_matches "Midi Through" "Midi Through Port-0"
        (deviceList_item (mk_client_info 14 "Midi Through" [])
           (mk_port_info 0 "Midi Through Port-0" 0x63))
      = true
      <-> "Midi Through" = ci_name (mk_client_info 14 "Midi Through" [])
          /\ "Midi Through Port-0"
             = pi_name (mk_port_info 0 "Midi Through Port-0" 0x63)).
Proof.
  assert (H1 : plain_name (ci_name (mk_client_info 14 "Midi Through" [])))
    by (split; reflexivity).
  assert (H2 : plain_name (pi_name (mk_port_info 0 "Midi Through Port-0" 0x63)))
    by (split; reflexivity).
  repeat (split; [assumption|]).
  exact (item_matches_names (mk_client_info 14 "Midi Through" [])
           (mk_port_info 0 "Midi Through Port-0" 0x63)
           "Midi Through" "Midi Through Port-0" H1 H2).
Defined.

(** X17: An item without a slash, so without the separator, passes the name
    tests for no port whose name is not empty. *)
Theorem item_matches_without_separator :
  forall sClientName sPortName sItem : string,
    has_char "/" sItem = false ->
    sPortName <> "" ->
    item_matches sClientName sPortName sItem = false.
Proof.
  intros cn pn sItem Hs Hpn. unfold item_matches.
  rewrite (section_missing sItem Hs).
  change (section ":" 1 1 "") with "".
  destruct (negb (cn =? _)); [reflexivity|].
  destruct (String.eqb_spec pn "") as [-> | _]; [contradiction | reflexivity].
Qed.

Lemma item_matches_without_separator_witness :
  has_char "/" "Midi Through Port-0" = false
  /\ "Midi Through Port-0" <> ""
  /\ item_matches "Midi Through" "Midi Through Port-0" "Midi Through Port-0"
     = false.
Proof.
  assert (H1 : has_char "/" "Midi Through Port-0" = false) by reflexivity.
  assert (H2 : "Midi Through Port-0" <> "") by discriminate.
  repeat (split; [assumption|]).
  exact (item_matches_without_separator "Midi Through" "Midi Through Port-0"
           "Midi Through Port-0" H1 H2).
Defined.

End MatchFacts.

(* ------------------------------------------------------------------ *)
(** ** Requesting subscriptions *)

Section RequestFacts.
Variable Seq : Type.
Variable seq_clients : Seq -> list snd_seq_client_info_t.
Variable snd_seq_subscribe_port :
  Seq -> snd_seq_port_subscribe_t -> Z * Seq.
Variables (bReadable : bool) (m_iAlsaClient m_iAlsaPort : Z).
Variable list_ : list string.

Local Abbreviation items_loop :=
  (connect_items Seq snd_seq_subscribe_port bReadable m_iAlsaClient m_iAlsaPort).
Local Abbreviation ports_loop :=
  (connect_ports Seq snd_seq_subscribe_port bReadable m_iAlsaClient m_iAlsaPort
     list_).
Local Abbreviation clients_loop :=
  (connect_clients Seq snd_seq_subscribe_port bReadable m_iAlsaClient
     m_iAlsaPort list_).
Local Abbreviation subs_of c p :=
  (pPortSubs bReadable m_iAlsaClient m_iAlsaPort (ci_client c) (pi_port p)).

(** Requests are only ever added. *)
Lemma connect_items_keeps c p items :
  forall co r, In r (co_requested co) ->
               In r (co_requested (items_loop c p items co)).
Proof.
  induction items as [| sItem rest IH]; intros co r Hin; [exact Hin|].
  cbn. destruct (item_matches _ _ sItem); [|now apply IH].
  destruct (snd_seq_subscribe_port _ _) as [rc seq]. apply IH. cbn.
  apply in_or_app. now left.
Qed.

Lemma connect_ports_keeps c ports :
  forall co r, In r (co_requested co) ->
               In r (co_requested (ports_loop c ports co)).
Proof.
  induction ports as [| p rest IH]; intros co r Hin; [exact Hin|].
  cbn. apply IH. destruct (port_listed bReadable p); [|exact Hin].
  now apply connect_items_keeps.
Qed.

Lemma connect_clients_keeps clients :
  forall co r, In r (co_requested co) ->
               In r (co_requested (clients_loop clients co)).
Proof.
  induction clients as [| c rest IH]; intros co r Hin; [exact Hin|].
  cbn. apply IH. destruct (client_listed m_iAlsaClient c); [|exact Hin].
  now apply connect_ports_keeps.
Qed.

(** Where a request comes from. *)
Lemma connect_items_origin c p items :
  forall co r,
    In r (co_requested (items_loop c p items co)) ->
    In r (co_requested co)
    \/ exists sItem,
        In sItem items
        /\ item_matches (ci_name c) (pi_name p) sItem = true
        /\ fst r = subs_of c p.
Proof.
  induction items as [| sItem rest IH]; intros co r Hin; [now left|].
  cbn in Hin. destruct (item_matches _ _ sItem) eqn:Hm.
  - destruct (snd_seq_subscribe_port _ _) as [rc seq].
    apply IH in Hin as [Hin | (s & Hs & Hms & Hr)].
    + cbn in Hin. apply in_app_or in Hin as [Hin | [<- | []]]; [now left|].
      right. exists sItem. repeat split; [now left | exact Hm].
    + right. exists s. repeat split; [now right | assumption ..].
  - apply IH in Hin as [Hin | (s & Hs & Hms & Hr)]; [now left|].
    right. exists s. repeat split; [now right | assumption ..].
Qed.

Lemma connect_ports_origin c ports :
  forall co r,
    In r (co_requested (ports_loop c ports co)) ->
    In r (co_requested co)
    \/ exists p sItem,
        In p ports /\ port_listed bReadable p = true
        /\ In sItem list_
        /\ item_matches (ci_name c) (pi_name p) sItem = true
        /\ fst r = subs_of c p.
Proof.
  induction ports as [| p rest IH]; intros co r Hin; [now left|].
  cbn in Hin. apply IH in Hin as [Hin | (q & s & Hq & Hrest)].
  - destruct (port_listed bReadable p) eqn:Hp; [|now left].
    apply connect_items_origin in Hin as [Hin | (s & Hs & Hm & Hr)];
      [now left|].
    right. exists p, s. repeat split; auto. now left.
  - right. exists q, s. split; [now right | exact Hrest].
Qed.

Lemma connect_clients_origin clients :
  forall co r,
    In r (co_requested (clients_loop clients co)) ->
    In r (co_requested co)
    \/ exists c p sItem,
        In c clients /\ client_listed m_iAlsaClient c = true
        /\ In p (ci_ports c) /\ port_listed bReadable p = true
        /\ In sItem list_
        /\ item_matches (ci_name c) (pi_name p) sItem = true
        /\ fst r = subs_of c p.
Proof.
  induction clients as [| c rest IH]; intros co r Hin; [now left|].
  cbn in Hin. apply IH in Hin as [Hin | (d & q & s & Hd & Hrest)].
  - destruct (client_listed m_iAlsaClient c) eqn:Hc; [|now left].
    apply connect_ports_origin in Hin as [Hin | (p & s & Hp & Hrest)];
      [now left|].
    right. exists c, p, s. split; [now left|]. split; [exact Hc|].
    split; [exact Hp | exact Hrest].
  - right. exists d, q, s. split; [now right | exact Hrest].
Qed.

(** A matching item of a listed port is requested. *)
Lemma connect_items_requests c p items sItem :
  In sItem items ->
  item_matches (ci_name c) (pi_name p) sItem = true ->
  forall co, exists rc,
    In (subs_of c p, rc) (co_requested (items_loop c p items co)).
Proof.
  intros Hin Hm. induction items as [| s rest IH]; intros co; [destruct Hin|].
  cbn. destruct Hin as [-> | Hin].
  - rewrite Hm. destruct (snd_seq_subscribe_port _ _) as [rc seq].
    exists rc. apply connect_items_keeps. cbn. apply in_or_app.
    right. now left.
  - destruct (item_matches _ _ s); [|now apply IH].
    destruct (snd_seq_subscribe_port _ _) as [rc seq]. now apply IH.
Qed.

Lemma connect_ports_requests c ports p sItem :
  In p ports -> port_listed bReadable p = true ->
  In sItem list_ ->
  item_matches (ci_name c) (pi_name p) sItem = true ->
  forall co, exists rc,
    In (subs_of c p, rc) (co_requested (ports_loop c ports co)).
Proof.
  intros Hin Hp Hs Hm. induction ports as [| q rest IH]; intros co;
    [destruct Hin|].
  cbn. destruct Hin as [-> | Hin]; [|now apply IH].
  rewrite Hp.
  destruct (connect_items_requests c p list_ sItem Hs Hm co) as [rc Hrc].
  exists rc. now apply connect_ports_keeps.
Qed.

Lemma connect_clients_requests clients c p sItem :
  In c clients -> client_listed m_iAlsaClient c = true ->
  In p (ci_ports c) -> port_listed bReadable p = true ->
  In sItem list_ ->
  item_matches (ci_name c) (pi_name p) sItem = true ->
  forall co, exists rc,
    In (subs_of c p, rc) (co_requested (clients_loop clients co)).
Proof.
  intros Hin Hc Hpin Hp Hs Hm. induction clients as [| d rest IH]; intros co;
    [destruct Hin|].
  cbn. destruct Hin as [-> | Hin]; [|now apply IH].
  rewrite Hc.
  destruct (connect_ports_requests c (ci_ports c) p sItem Hpin Hp Hs Hm co)
    as [rc Hrc].
  exists rc. now apply connect_clients_keeps.
Qed.

End RequestFacts.

(** X19: With the ALSA sequencer, every subscription [connectDeviceList]
    requests is for a port that passes the capability test, of a client
    with a positive number other than the device's own, whose client
    and port names pass the name tests for an item of the list; the
    address of that port is the sender when connecting inputs and the
    destination when connecting outputs, and the device's own address is
    at the other end, each client and port number as the [unsigned char]
    address member holds it, that is modulo 256. *)
Theorem connectDeviceList_requests_only_matching :
  forall (Seq : Type) (seq_clients : Seq -> list snd_seq_client_info_t)
         (snd_seq_subscribe_port : Seq -> snd_seq_port_subscribe_t -> Z * Seq)
         (m_pAlsaSeq : option Seq) (m_iAlsaClient m_iAlsaPort : Z)
         (bReadable : bool) (list_ : list string)
         (subs : snd_seq_port_subscribe_t) (rc : Z),
    In (subs, rc)
       (snd (connectDeviceList_alsa Seq seq_clients snd_seq_subscribe_port
               m_pAlsaSeq m_iAlsaClient m_iAlsaPort bReadable list_)) ->
    exists seq pClientInfo pPortInfo sItem,
      m_pAlsaSeq = Some seq
      /\ In pClientInfo (seq_clients seq)
      /\ 0 < ci_client pClientInfo
      /\ ci_client pClientInfo <> m_iAlsaClient
      /\ In pPortInfo (ci_ports pClientInfo)
      /\ port_listed bReadable pPortInfo = true
      /\ In sItem list_
      /\ item_matches (ci_name pClientInfo) (pi_name pPortInfo) sItem = true
      /\ (if bReadable then subs_sender subs else subs_dest subs)
         = mk_addr (ci_client pClientInfo mod 256) (pi_port pPortInfo mod 256)
      /\ (if bReadable then subs_dest subs else subs_sender subs)
         = mk_addr (m_iAlsaClient mod 256) (m_iAlsaPort mod 256).
Proof.
  intros Seq seq_clients subscribe m_pAlsaSeq own ownport bReadable list_
         subs rc Hin.
  unfold connectDeviceList_alsa in Hin.
  destruct list_ as [| s0 rest]; [destruct Hin|].
  destruct m_pAlsaSeq as [seq |]; [|destruct Hin].
  cbn [snd] in Hin.
  apply connect_clients_origin in Hin as [[] | (c & p & s & Hc & Hl & Hp & Hpl & Hs & Hm & Hr)].
  apply client_listed_spec in Hl as [Hpos Hne].
  exists seq, c, p, s. cbn [fst] in Hr. subst subs.
  repeat split; auto; destruct bReadable; reflexivity.
Qed.

Lemma connectDeviceList_requests_only_matching_witness :
  In (mk_subscribe (mk_addr 14 0) (mk_addr 128 0), 0)
     (snd (connectDeviceList_alsa unit
             (fun _ => [mk_client_info 14 "Midi Through"
                          [mk_port_info 0 "Midi Through Port-0" 0x63]])
             (fun seq _ => (0, seq))
             (Some tt) 128 0 true
             ["14:Midi Through / 0:Midi Through Port-0"%string]))
  /\ exists seq pClientInfo pPortInfo sItem,
      Some tt = Some seq
      /\ In pClientInfo
           ((fun _ : unit => [mk_client_info 14 "Midi Through"
                                [mk_port_info 0 "Midi Through Port-0" 0x63]]) seq)
      /\ 0 < ci_client pClientInfo
      /\ ci_client pClientInfo <> 128
      /\ In pPortInfo (ci_ports pClientInfo)
      /\ port_listed true pPortInfo = true
      /\ In sItem ["14:Midi Through / 0:Midi Through Port-0"%string]
      /\ item_matches (ci_name pClientInfo) (pi_name pPortInfo) sItem = true
      /\ subs_sender (mk_subscribe (mk_addr 14 0) (mk_addr 128 0))
         = mk_addr (ci_client pClientInfo mod 256) (pi_port pPortInfo mod 256)
      /\ subs_dest (mk_subscribe (mk_addr 14 0) (mk_addr 128 0))
         = mk_addr (128 mod 256) (0 mod 256).
Proof.
  assert (Hin : In (mk_subscribe (mk_addr 14 0) (mk_addr 128 0), 0)
     (snd (connectDeviceList_alsa unit
             (fun _ => [mk_client_info 14 "Midi Through"
                          [mk_port_info 0 "Midi Through Port-0" 0x63]])
             (fun seq _ => (0, seq))
             (Some tt) 128 0 true
             ["14:Midi Through / 0:Midi Through Port-0"%string])))
    by (vm_compute; left; reflexivity).
  split; [exact Hin|].
  exact (connectDeviceList_requests_only_matching unit _ _ (Some tt) 128 0 true
           _ _ _ Hin).
Defined.

(** X20: Connecting with the items the device list gave requests a
    subscription for every listed port whose client and port names hold
    no colon and no slash. *)
Theorem connectDeviceList_requests_listed :
  forall (Seq : Type) (seq_clients : Seq -> list snd_seq_client_info_t)
         (snd_seq_subscribe_port : Seq -> snd_seq_port_subscribe_t -> Z * Seq)
         (seq : Seq) (m_iAlsaClient m_iAlsaPort : Z) (bReadable : bool)
         (pClientInfo : snd_seq_client_info_t)
         (pPortInfo : snd_seq_port_info_t),
    In pClientInfo (seq_clients seq) ->
    client_listed m_iAlsaClient pClientInfo = true ->
    In pPortInfo (ci_ports pClientInfo) ->
    port_listed bReadable pPortInfo = true ->
    plain_name (ci_name pClientInfo) ->
    plain_name (pi_name pPortInfo) ->
    exists rc,
      In (pPortSubs bReadable m_iAlsaClient m_iAlsaPort
            (ci_client pClientInfo) (pi_port pPortInfo), rc)
         (snd (connectDeviceList_alsa Seq seq_clients snd_seq_subscribe_port
                 (Some seq) m_iAlsaClient m_iAlsaPort bReadable
                 (deviceList (Some (seq_clients seq)) m_iAlsaClient bReadable))).
Proof.
  intros Seq seq_clients subscribe seq own ownport bReadable c p
         Hc Hl Hp Hpl Hcn Hpn.
  assert (Hitem : In (deviceList_item c p)
                    (deviceList (Some (seq_clients seq)) own bReadable))
    by (now apply deviceList_clients_complete).
  unfold connectDeviceList_alsa.
  destruct (deviceList (Some (seq_clients seq)) own bReadable) as [| s0 rest] eqn:Hlist;
    [destruct Hitem|].
  cbn [snd]. rewrite <- Hlist in *.
  apply (connect_clients_requests Seq subscribe bReadable own ownport _
           (seq_clients seq) c p (deviceList_item c p)); auto.
  now apply item_matches_deviceList_item.
Qed.

Lemma connectDeviceList_requests_listed_witness :
  In (mk_client_info 14 "Midi Through"
        [mk_port_info 0 "Midi Through Port-0" 0x63])
     ((fun _ : unit => [mk_client_info 14 "Midi Through"
                          [mk_port_info 0 "Midi Through Port-0" 0x63]]) tt)
  /\ client_listed 128
       (mk_client_info 14 "Midi Through"
          [mk_port_info 0 "Midi Through Port-0" 0x63]) = true
  /\ In (mk_port_info 0 "Midi Through Port-0" 0x63)
        (ci_ports (mk_client_info 14 "Midi Through"
                     [mk_port_info 0 "Midi Through Port-0" 0x63]))
  /\ port_listed true (mk_port_info 0 "Midi Through Port-0" 0x63) = true
  /\ plain_name "Midi Through"
  /\ plain_name "Midi Through Port-0"
  /\ exists rc,
      In (pPortSubs true 128 0 14 0, rc)
         (snd (connectDeviceList_alsa unit
                 (fun _ => [mk_client_info 14 "Midi Through"
                              [mk_port_info 0 "Midi Through Port-0" 0x63]])
                 (fun seq _ => (0, seq))
                 (Some tt) 128 0 true
                 (deviceList
                    (Some [mk_client_info 14 "Midi Through"
                             [mk_port_info 0 "Midi Through Port-0" 0x63]])
                    128 true))).
Proof.
  assert (H1 : In (mk_client_info 14 "Midi Through"
        [mk_port_info 0 "Midi Through Port-0" 0x63])
     ((fun _ : unit => [mk_client_info 14 "Midi Through"
                          [mk_port_info 0 "Midi Through Port-0" 0x63]]) tt))
    by (left; reflexivity).
  assert (H2 : client_listed 128
       (mk_client_info 14 "Midi Through"
          [mk_port_info 0 "Midi Through Port-0" 0x63]) = true) by reflexivity.
  assert (H3 : In (mk_port_info 0 "Midi Through Port-0" 0x63)
        (ci_ports (mk_client_info 14 "Midi Through"
                     [mk_port_info 0 "Midi Through Port-0" 0x63])))
    by (left; reflexivity).
  assert (H4 : port_listed true (mk_port_info 0 "Midi Through Port-0" 0x63) = true)
    by reflexivity.
  assert (H5 : plain_name "Midi Through") by (split; reflexivity).
  assert (H6 : plain_name "Midi Through Port-0") by (split; reflexivity).
  repeat (split; [assumption|]).
  exact (connectDeviceList_requests_listed unit
           (fun _ => [mk_client_info 14 "Midi Through"
                        [mk_port_info 0 "Midi Through Port-0" 0x63]])
           (fun seq _ => (0, seq)) tt 128 0 true _ _ H1 H2 H3 H4 H5 H6).
Defined.

(* ------------------------------------------------------------------ *)
(** ** Opening RtMidi ports *)

Lemma connect_rtmidi_ports_count (portName : string) (m : RtMidi)
    (names : list string) :
  forall (i : nat) (m' : RtMidi) (n : Z),
    connect_rtmidi_ports portName m i names = Returns (m', n) ->
    (n = 0 /\ m' = m /\ ~ In portName names)
    \/ (n = 1 /\ In portName names).
Proof.
  induction names as [| name rest IH]; intros i m' n Hr; cbn in Hr.
  - inversion Hr; subst. left. auto.
  - destruct (String.eqb_spec name portName) as [-> | Hne].
    + right. destruct (rt_openPort m i); inversion Hr; subst;
        split; auto; now left.
    + apply IH in Hr as [(-> & -> & Hn) | (-> & Hin)].
      * left. repeat split; auto. intros [? | ?]; contradiction.
      * right. split; [reflexivity | now right].
Qed.


(** X21: When [connectDeviceList] returns [false] with RtMidi, either the
    list was empty and the device is as it was, or no port has the name
    of the first entry and no port is open any more, whatever was open
    before. *)
Theorem connectDeviceList_rtmidi_false :
  forall (m m' : RtMidi) (list_ : list string),
    connectDeviceList_rtmidi (Some m) list_ = Returns (false, Some m') ->
    (list_ = [] /\ m' = m)
    \/ (exists portName rest,
           list_ = portName :: rest
           /\ ~ In portName (rt_names m)
           /\ m' = closePort m
           /\ isPortOpen m' = false).
Proof.
  intros m m' list_ Hr. unfold connectDeviceList_rtmidi in Hr.
  destruct list_ as [| portName rest].
  - inversion Hr; subst. left. auto.
  - right. exists portName, rest.
    destruct (connect_rtmidi_ports portName (closePort m) 0 (rt_names m))
      as [[m1 n] |] eqn:Hc; [|discriminate].
    inversion Hr; subst.
    apply connect_rtmidi_ports_count in Hc as [(_ & -> & Hn) | (-> & _)];
      [|discriminate].
    repeat split; auto.
Qed.

Lemma connectDeviceList_rtmidi_false_witness :
  connectDeviceList_rtmidi
    (Some (mk_RtMidi ["A"%string] (Some 0%nat) (fun _ => PortOpened)))
    ["B"%string]
  = Returns (false, Some (mk_RtMidi ["A"%string] None (fun _ => PortOpened)))
  /\ ((["B"%string] = []
       /\ mk_RtMidi ["A"%string] None (fun _ => PortOpened)
          = mk_RtMidi ["A"%string] (Some 0%nat) (fun _ => PortOpened))
      \/ (exists portName rest,
             ["B"%string] = portName :: rest
             /\ ~ In portName
                  (rt_names (mk_RtMidi ["A"%string] (Some 0%nat)
                               (fun _ => PortOpened)))
             /\ mk_RtMidi ["A"%string] None (fun _ => PortOpened)
                = closePort (mk_RtMidi ["A"%string] (Some 0%nat)
                               (fun _ => PortOpened))
             /\ isPortOpen (mk_RtMidi ["A"%string] None (fun _ => PortOpened))
                = false)).
Proof.
  assert (Hr : connectDeviceList_rtmidi
    (Some (mk_RtMidi ["A"%string] (Some 0%nat) (fun _ => PortOpened)))
    ["B"%string]
  = Returns (false, Some (mk_RtMidi ["A"%string] None (fun _ => PortOpened))))
    by reflexivity.
  split; [exact Hr|].
  exact (connectDeviceList_rtmidi_false _ _ _ Hr).
Defined.



(* ------------------------------------------------------------------ *)
(** ** Sending SysEx *)

Lemma sysex_length_le (sysex : list Z) :
  (Z.to_nat (sysex_length sysex) <= List.length sysex)%nat.
Proof.
  unfold sysex_length.
  pose proof (Z.mod_pos_bound (Z.of_nat (List.length sysex)) 65536 eq_refl).
  pose proof (Z.mod_le (Z.of_nat (List.length sysex)) 65536). lia.
Qed.

(** X23: What is sent for an array is always a prefix of it, as long as the
    length of the array modulo 65536: the length is passed on as an
    [unsigned short].  Nothing is appended or changed.  With ALSA the
    event is sent from the port [m_iAlsaPort] modulo 256, the
    [unsigned char] source port of the event. *)
Theorem sendSysex_sends_prefix :
  forall (Seq : Type) (seq : Seq) (m_iAlsaPort : Z) (sysex : list Z),
    exists sent tail,
      sysex = sent ++ tail
      /\ Z.of_nat (List.length sent) = Z.of_nat (List.length sysex) mod 65536
      /\ sendSysex_alsa (Some seq) m_iAlsaPort sysex
         = [snd_seq_event_output_direct (m_iAlsaPort mod 256) sent]
      /\ forall m : RtMidi,
          sendSysex_rtmidi (Some m) sysex
          = if isPortOpen m then [sendMessage sent] else [].
Proof.
  intros Seq seq port sysex.
  exists (bytes_at sysex (sysex_length sysex)),
         (skipn (Z.to_nat (sysex_length sysex)) sysex).
  unfold bytes_at. repeat split.
  - now rewrite firstn_skipn.
  - rewrite length_firstn, Nat.min_l by apply sysex_length_le.
    unfold sysex_length. rewrite Z2Nat.id; [reflexivity|].
    apply Z.mod_pos_bound. reflexivity.
Qed.

(** X24: An array shorter than 65536 bytes is sent as it is, once: with
    ALSA to the subscribers of the port [m_iAlsaPort] modulo 256, which
    is the device's own port when that is a number from 0 to 255, with
    RtMidi to the open port.  Without a sequencer, without an output
    object or with no port open, nothing is sent. *)
Theorem sendSysex_sends_whole :
  forall (Seq : Type) (seq : Seq) (m_iAlsaPort : Z) (m : RtMidi)
         (sysex : list Z),
    Z.of_nat (List.length sysex) < 65536 ->
    sendSysex_alsa (Some seq) m_iAlsaPort sysex
    = [snd_seq_event_output_direct (m_iAlsaPort mod 256) sysex]
    /\ (0 <= m_iAlsaPort < 256 ->
        sendSysex_alsa (Some seq) m_iAlsaPort sysex
        = [snd_seq_event_output_direct m_iAlsaPort sysex])
    /\ sendSysex_alsa (@None Seq) m_iAlsaPort sysex = []
    /\ sendSysex_rtmidi (Some m) sysex
       = (if isPortOpen m then [sendMessage sysex] else [])
    /\ sendSysex_rtmidi None sysex = [].
Proof.
  intros Seq seq port m sysex Hlen.
  assert (Hb : bytes_at sysex (sysex_length sysex) = sysex).
  { unfold bytes_at, sysex_length.
    rewrite Z.mod_small by lia. rewrite Nat2Z.id. apply firstn_all. }
  unfold sendSysex_alsa, sendSysex_rtmidi, sendSysex_alsa_raw,
    sendSysex_rtmidi_raw, u8. rewrite Hb. repeat split.
  intros Hport. rewrite Z.mod_small by lia. reflexivity.
Qed.

Lemma sendSysex_sends_whole_witness :
  Z.of_nat (List.length [0xF0; 0x43; 0x10; 0x4C; 0; 0; 0x7E; 0; 0xF7]) < 65536
  /\ sendSysex_alsa (Some tt) 0 [0xF0; 0x43; 0x10; 0x4C; 0; 0; 0x7E; 0; 0xF7]
     = [snd_seq_event_output_direct (0 mod 256)
          [0xF0; 0x43; 0x10; 0x4C; 0; 0; 0x7E; 0; 0xF7]]
  /\ (0 <= 0 < 256 ->
      sendSysex_alsa (Some tt) 0 [0xF0; 0x43; 0x10; 0x4C; 0; 0; 0x7E; 0; 0xF7]
      = [snd_seq_event_output_direct 0
           [0xF0; 0x43; 0x10; 0x4C; 0; 0; 0x7E; 0; 0xF7]])
  /\ sendSysex_alsa (@None unit) 0 [0xF0; 0x43; 0x10; 0x4C; 0; 0; 0x7E; 0; 0xF7]
     = []
  /\ sendSysex_rtmidi
       (Some (mk_RtMidi ["A"%string] (Some 0%nat) (fun _ => PortOpened)))
       [0xF0; 0x43; 0x10; 0x4C; 0; 0; 0x7E; 0; 0xF7]
     = (if isPortOpen (mk_RtMidi ["A"%string] (Some 0%nat) (fun _ => PortOpened))
        then [sendMessage [0xF0; 0x43; 0x10; 0x4C; 0; 0; 0x7E; 0; 0xF7]]
        else [])
  /\ sendSysex_rtmidi None [0xF0; 0x43; 0x10; 0x4C; 0; 0; 0x7E; 0; 0xF7] = [].
Proof.
  assert (Hlen : Z.of_nat (List.length [0xF0; 0x43; 0x10; 0x4C; 0; 0; 0x7E; 0; 0xF7])
                 < 65536) by (simpl; lia).
  split; [exact Hlen|].
  exact (sendSysex_sends_whole unit tt 0
           (mk_RtMidi ["A"%string] (Some 0%nat) (fun _ => PortOpened)) _ Hlen).
Defined.
